(** * sb8200_exporter: the collection pass of the Arris SB8200 exporter

    A shallow embedding of [sb8200_exporter.py]: the login exchange
    ([login]), the XML getter ([fetch_xml]), the three resolvers
    ([parse_status], [parse_downstream], [parse_upstream]) and the
    [/metrics] handler ([metrics]) that turns the resolved records into
    gauge samples of a per-request registry.

    Conventions of the embedding.
    - A Python [str] is a [string] whose characters are read as the code
      points 0..255; a value that may be [None] is an [option], and
      [a or b] is [py_or] (or [or_str] when [b] is a literal).
    - Python floats are IEEE binary64 values: [spec_float] at precision 53
      and maximal exponent 1024, decimal literals rounded to nearest,
      ties to even.
    - [etree.fromstring] is taken as given: a response body either is not
      well-formed XML or denotes an element tree ([xml_bytes]).
    - The modem is a value of type [modem]: what it answers to the login
      POST and to the getter POST of each function number.
    - The handler runs in a state-and-exception monad [M] over the
      session cookies, the registry of the request and the log of the
      POSTs issued; [try ... except] is [try_ValueError] or
      [try_Exception], a [for] loop is [for_each].
    - The registry follows [prometheus_client]: building a [Gauge]
      registers its name, and a name the registry already holds makes
      the constructor raise [ValueError]. *)

From Stdlib Require Import ZArith List String Ascii Bool Lia.
From Stdlib Require Import SpecFloat.
Import ListNotations.
Open Scope string_scope.
Open Scope Z_scope.
Open Scope list_scope.

Set Implicit Arguments.
Set Warnings "-register-all".

(** ** Python built-ins used by the exporter *)

Module Py.

(** Truthiness of an optional string: [None] and [""] are falsy. *)
Definition truthy (v : option string) : bool :=
  match v with
  | Some (String _ _) => true
  | _ => false
  end.

(** [a or b] on optional strings. *)
Definition py_or (a b : option string) : option string :=
  if truthy a then a else b.

(** [a or d] where [d] is a string literal: the result is a string. *)
Definition or_str (a : option string) (d : string) : string :=
  match a with
  | Some (String c s) => String c s
  | _ => d
  end.

Definition code (c : ascii) : Z := Z.of_N (N_of_ascii c).

(** [str.isspace] on the code points below 256. *)
Definition isspace (c : ascii) : bool :=
  let n := code c in
  ((9 <=? n) && (n <=? 13)) || ((28 <=? n) && (n <=? 32))
  || (n =? 133) || (n =? 160).

Definition isdigit (c : ascii) : bool :=
  let n := code c in (48 <=? n) && (n <=? 57).

(** [str.lower] on one code point below 256: A-Z and the Latin-1 capitals. *)
Definition lower_char (c : ascii) : ascii :=
  let n := code c in
  if ((65 <=? n) && (n <=? 90))
     || ((192 <=? n) && (n <=? 222) && negb (n =? 215))
  then ascii_of_N (Z.to_N (n + 32)) else c.

Fixpoint lower (s : string) : string :=
  match s with
  | EmptyString => EmptyString
  | String c r => String (lower_char c) (lower r)
  end.

Fixpoint drop_space (l : list ascii) : list ascii :=
  match l with
  | c :: r => if isspace c then drop_space r else l
  | [] => []
  end.

Fixpoint take_word (l : list ascii) : list ascii :=
  match l with
  | c :: r => if isspace c then [] else c :: take_word r
  | [] => []
  end.

(** [s.split()[0]]: the first whitespace-delimited token; [None] stands for
    the [IndexError] raised when [s.split()] is the empty list. *)
Definition split_first (s : string) : option string :=
  match drop_space (list_ascii_of_string s) with
  | [] => None
  | l => Some (string_of_list_ascii (take_word l))
  end.

(** [s.strip()] as applied by [int] and [float] to their argument. *)
Definition strip (l : list ascii) : list ascii :=
  rev (drop_space (rev (drop_space l))).

(** Underscores in a numeric literal: each one must stand between two
    digits; they are then dropped. [prev] is the character before [l]. *)
Fixpoint drop_underscores (prev : option ascii) (l : list ascii)
  : option (list ascii) :=
  match l with
  | [] => Some []
  | c :: r =>
      if Ascii.eqb c "_" then
        match prev, r with
        | Some p, n :: _ =>
            if isdigit p && isdigit n then drop_underscores (Some c) r
            else None
        | _, _ => None
        end
      else option_map (cons c) (drop_underscores (Some c) r)
  end.

Fixpoint span_digits (l : list ascii) : list ascii * list ascii :=
  match l with
  | c :: r =>
      if isdigit c then let (d, t) := span_digits r in (c :: d, t)
      else ([], l)
  | [] => ([], [])
  end.

Definition digits_value (d : list ascii) : Z :=
  fold_left (fun acc c => 10 * acc + (code c - 48)) d 0.

(** An optional sign: [true] is minus. *)
Definition take_sign (l : list ascii) : bool * list ascii :=
  match l with
  | c :: r =>
      if Ascii.eqb c "-" then (true, r)
      else if Ascii.eqb c "+" then (false, r)
      else (false, l)
  | [] => (false, [])
  end.

(** [int(s)] in base 10; [None] stands for [ValueError]. The bound that
    recent interpreters put on the number of digits is not modelled. *)
Definition int (s : string) : option Z :=
  match drop_underscores None (list_ascii_of_string s) with
  | None => None
  | Some l =>
      let (neg, body) := take_sign (strip l) in
      match span_digits body with
      | ((_ :: _) as d, []) =>
          Some (if neg then - digits_value d else digits_value d)
      | _ => None
      end
  end.

Definition prec : Z := 53.
Definition emax : Z := 1024.

Definition zero : spec_float := S754_zero false.
Definition one : spec_float := S754_finite false 4503599627370496 (-52).

(** The binary64 value nearest to [m * 10 ^ e10] (ties to even), for a
    sign and a natural number [m]. *)
Definition round_decimal (neg : bool) (m e10 : Z) : spec_float :=
  if m =? 0 then S754_zero neg
  else if 0 <=? e10 then
    binary_normalize prec emax
      ((if neg then - m else m) * 10 ^ e10) 0 false
  else
    let '(q, e, l) :=
      SFdiv_core_binary prec emax m 0 (10 ^ (- e10)) 0 in
    binary_round_aux prec emax neg q e l.

(** The exponent part of a float literal: empty, or [e], an optional sign
    and at least one digit. *)
Definition exponent (l : list ascii) : option Z :=
  match l with
  | [] => Some 0
  | c :: r =>
      if Ascii.eqb (lower_char c) "e" then
        let (neg, body) := take_sign r in
        match span_digits body with
        | ((_ :: _) as d, []) =>
            Some (if neg then - digits_value d else digits_value d)
        | _ => None
        end
      else None
  end.

Definition lower_list (l : list ascii) : string :=
  lower (string_of_list_ascii l).

(** [float(s)] for a string; [None] stands for [ValueError]. *)
Definition float (s : string) : option spec_float :=
  match drop_underscores None (list_ascii_of_string s) with
  | None => None
  | Some l =>
      let (neg, body) := take_sign (strip l) in
      let w := lower_list body in
      if String.eqb w "inf" || String.eqb w "infinity"
      then Some (S754_infinity neg)
      else if String.eqb w "nan" then Some S754_nan
      else
        let (ip, r1) := span_digits body in
        let (fp, r2) :=
          match r1 with
          | c :: r =>
              if Ascii.eqb c "." then span_digits r else ([], r1)
          | [] => ([], [])
          end in
        match ip ++ fp with
        | [] => None
        | d =>
            match exponent r2 with
            | Some e =>
                Some (round_decimal neg (digits_value d)
                        (e - Z.of_nat (List.length fp)))
            | None => None
            end
        end
  end.

(** [float(n)] for an [int]; [None] stands for [OverflowError]. *)
Definition float_of_int (n : Z) : option spec_float :=
  match binary_normalize prec emax n 0 false with
  | S754_infinity _ => None
  | f => Some f
  end.

(** [needle in s] on strings. *)
Fixpoint contains (needle s : string) : bool :=
  if String.prefix needle s then true
  else match s with
       | EmptyString => false
       | String _ r => contains needle r
       end.

End Py.

(** ** XML element trees, as [lxml.etree] exposes them *)

Inductive element : Type :=
  Element (tag : string) (text : option string) (children : list element).

Definition tag_of (e : element) : string :=
  match e with Element t _ _ => t end.

Definition children_of (e : element) : list element :=
  match e with Element _ _ cs => cs end.

(** [el.text or ''], the text [findtext] reports for a found element. *)
Definition text_of (e : element) : string :=
  match e with
  | Element _ (Some s) _ => s
  | Element _ None _ => ""
  end.

(** The proper descendants of an element in document order: what the
    path [.//tag] ranges over. *)
Fixpoint descendants (e : element) : list element :=
  match e with
  | Element _ _ cs => flat_map (fun c => c :: descendants c) cs
  end.

Definition has_tag (t : string) (e : element) : bool :=
  String.eqb (tag_of e) t.

(** [el.find(tag)]: the first child carrying the tag. *)
Definition find (e : element) (t : string) : option element :=
  List.find (has_tag t) (children_of e).

(** [el.findtext(tag)]: [None] when no child carries the tag. *)
Definition findtext (e : element) (t : string) : option string :=
  option_map text_of (find e t).

(** [root.findall(".//tag")]. *)
Definition findall_desc (root : element) (t : string) : list element :=
  filter (has_tag t) (descendants root).

(** [root.findtext(".//tag", default="")]. *)
Definition findtext_desc (root : element) (t : string) : string :=
  match findall_desc root t with
  | e :: _ => text_of e
  | [] => ""
  end.

(** The bytes of a response body, seen through [etree.fromstring]. *)
Inductive xml_bytes : Type :=
  | NotXML
  | Doc (root : element).

(** ** Exceptions and results *)

Inductive exn : Type :=
  | LoginError          (* Exception("Login failed: no sessionToken in cookies") *)
  | ConnectionError     (* a transport failure raised by [session.post] *)
  | HTTPError (status : Z)
  | XMLSyntaxError
  | ValueError
  | IndexError
  | OverflowError.

Definition is_ValueError (e : exn) : bool :=
  match e with ValueError => true | _ => false end.

Inductive result (A : Type) : Type :=
  | Ok (a : A)
  | Raise (e : exn).
Arguments Ok {A} a.
Arguments Raise {A} e.

(** ** The schema resolver *)

Import Py.

Definition status_tags : list string :=
  [ "cm_connected"; "HwModel"; "cm_docsis_mode"; "CurrentTime";
    "cm_system_uptime"; "cm_mac_addr"; "cm_serial_number";
    "cm_hardware_version"; "cm_network_access"; "cm_status";
    "BPIEnabled"; "freq"; "pow"; "snr" ].

(** The status dict: one entry per tag of interest, in insertion order. *)
Definition status_dict : Type := list (string * string).

Fixpoint dict_get (d : status_dict) (k : string) : option string :=
  match d with
  | [] => None
  | (k', v) :: r => if String.eqb k' k then Some v else dict_get r k
  end.

Definition parse_status (xml : xml_bytes) : result status_dict :=
  match xml with
  | NotXML => Raise XMLSyntaxError
  | Doc root =>
      Ok (map (fun tag => (tag, findtext_desc root tag)) status_tags)
  end.

(** The dict yielded for one downstream element. *)
Record ds_record : Type := {
  ds_chid : option string;
  ds_locked : option string;
  ds_modulation : option string;
  ds_frequency : option string;
  ds_power : option string;
  ds_snr : option string;
  ds_corrected : string;
  ds_uncorrectables : string
}.

Definition downstream_entry (ds : element) : ds_record := {|
  ds_chid := py_or (findtext ds "chid") (findtext ds "dsid");
  ds_locked := py_or (findtext ds "IsLocked") (findtext ds "ofdmIsLocked");
  ds_modulation := py_or (findtext ds "mod") (findtext ds "ofdmModulation");
  ds_frequency := py_or (findtext ds "freq") (findtext ds "plcFrequency");
  ds_power := py_or (findtext ds "pow") (findtext ds "PLCPower");
  ds_snr := py_or (findtext ds "snr") (findtext ds "PlcScAvgMer");
  ds_corrected :=
    or_str (py_or (findtext ds "correctable") (findtext ds "ofdmCorrected"))
           "0";
  ds_uncorrectables :=
    or_str (py_or (findtext ds "uncorrectable")
                  (findtext ds "ofdmUncorrectable")) "0"
|}.

(** [parse_downstream]: the generator's body first parses the bytes, then
    yields one dict per [downstream] element in document order. Yielding
    has no effect of its own, so the generator is the list it produces. *)
Definition parse_downstream (xml : xml_bytes) : result (list ds_record) :=
  match xml with
  | NotXML => Raise XMLSyntaxError
  | Doc root => Ok (map downstream_entry (findall_desc root "downstream"))
  end.

(** The dict yielded for one upstream element. *)
Record us_record : Type := {
  us_usid : option string;
  us_locked : option string;
  us_type : string;
  us_frequency : option string;
  us_bandwidth : option string;
  us_power : option string
}.

Definition upstream_entry (us : element) : us_record := {|
  us_usid := findtext us "usid";
  us_locked := py_or (findtext us "usLocked") (findtext us "ofdmaLocked");
  us_type :=
    match find us "ofdmaLocked" with
    | Some _ => "OFDMA"
    | None => "SC-QAM"
    end;
  us_frequency := py_or (findtext us "freq") (findtext us "centerFreq");
  us_bandwidth := py_or (findtext us "bandwidth") (findtext us "width");
  us_power := py_or (findtext us "power") (findtext us "repPower1_6")
|}.

Definition parse_upstream (xml : xml_bytes) : result (list us_record) :=
  match xml with
  | NotXML => Raise XMLSyntaxError
  | Doc root => Ok (map upstream_entry (findall_desc root "upstream"))
  end.

(** ** The metrics registry of one request

    [prometheus_client] keeps, per [CollectorRegistry], the metric families
    in registration order. Constructing a [Gauge] registers it; registering
    a name the registry already holds raises [ValueError] ("Duplicated
    timeseries in CollectorRegistry"). A gauge built without label names
    holds one value from the start; a gauge with label names holds one
    child per label-value tuple, created by [labels] with value 0.0.
    [set(v)] stores [float(v)]. *)

Record family : Type := {
  f_name : string;
  f_help : string;
  f_labelnames : list string;
  f_children : list (list string * spec_float)
}.

(** One rendered sample: what [generate_latest] prints a line for. *)
Record sample : Type := {
  s_name : string;
  s_help : string;
  s_labels : list (string * string);
  s_value : spec_float
}.

Definition family_samples (f : family) : list sample :=
  map (fun ch => {| s_name := f_name f; s_help := f_help f;
                    s_labels := combine (f_labelnames f) (fst ch);
                    s_value := snd ch |})
      (f_children f).

Definition collect (reg : list family) : list sample :=
  flat_map family_samples reg.

Definition registered (n : string) (reg : list family) : bool :=
  existsb (fun f => String.eqb (f_name f) n) reg.

Definition values_eqb (a b : list string) : bool :=
  if list_eq_dec string_dec a b then true else false.

Definition has_child (vs : list string) (f : family) : bool :=
  existsb (fun ch => values_eqb (fst ch) vs) (f_children f).

Definition on_family (n : string) (g : family -> family)
  (reg : list family) : list family :=
  map (fun f => if String.eqb (f_name f) n then g f else f) reg.

Definition add_child (vs : list string) (f : family) : family :=
  if has_child vs f then f
  else {| f_name := f_name f; f_help := f_help f;
          f_labelnames := f_labelnames f;
          f_children := f_children f ++ [(vs, zero)] |}.

Definition set_child (vs : list string) (v : spec_float) (f : family)
  : family :=
  {| f_name := f_name f; f_help := f_help f;
     f_labelnames := f_labelnames f;
     f_children :=
       map (fun ch => if values_eqb (fst ch) vs then (vs, v) else ch)
           (f_children f) |}.

(** ** The modem and the state of one pass *)

(** What a POST comes back with: no response at all (the transport
    failed, [session.post] raises), or a response with its status. *)
Inductive reply (A : Type) : Type :=
  | NoReply
  | Reply (status : Z) (content : A).
Arguments NoReply {A}.
Arguments Reply {A} status content.

(** The device: its answer to the login POST (the names of the cookies
    the response sets) and to the getter POST for each [fun] number. *)
Record modem : Type := {
  login_xml : reply (list string);
  getter_xml : Z -> reply xml_bytes
}.

Inductive request : Type :=
  | PostLogin
  | PostGetter (fun_num : Z).

Record pass_state : Type := {
  cookies : list string;       (* session.cookies *)
  registry : list family;      (* the CollectorRegistry of the request *)
  requests : list request      (* the POSTs issued so far, oldest first *)
}.

Definition fresh_state : pass_state :=
  {| cookies := []; registry := []; requests := [] |}.

(** ** A state-and-exception monad for the handler *)

Definition M (A : Type) : Type := pass_state -> result A * pass_state.

Definition ret {A} (a : A) : M A := fun st => (Ok a, st).

Definition raise {A} (e : exn) : M A := fun st => (Raise e, st).

Definition bind {A B} (m : M A) (k : A -> M B) : M B :=
  fun st =>
    match m st with
    | (Ok a, st') => k a st'
    | (Raise e, st') => (Raise e, st')
    end.

Declare Scope pass_scope.
Delimit Scope pass_scope with pass.
Notation "x <- m ;; k" := (bind m (fun x => k))
  (at level 61, m at next level, right associativity) : pass_scope.
Notation "m ;; k" := (bind m (fun _ => k))
  (at level 61, right associativity) : pass_scope.
Open Scope pass_scope.

(** [try: m except ValueError: pass]. *)
Definition try_ValueError (m : M unit) : M unit :=
  fun st =>
    match m st with
    | (Raise e, st') =>
        if is_ValueError e then (Ok tt, st') else (Raise e, st')
    | r => r
    end.

(** [try: m except Exception: continue], the body of a [for] over the
    function numbers. *)
Definition try_Exception (m : M unit) : M unit :=
  fun st =>
    match m st with
    | (Raise _, st') => (Ok tt, st')
    | r => r
    end.

(** [for x in l: body x]; an exception leaves the loop. *)
Fixpoint for_each {A} (l : list A) (body : A -> M unit) : M unit :=
  match l with
  | [] => ret tt
  | x :: r => body x ;; for_each r body
  end.

(** A built-in that raises [e] where its model answers [None]. *)
Definition or_raise {A} (e : exn) (o : option A) : M A :=
  match o with
  | Some a => ret a
  | None => raise e
  end.

Definition lift {A} (r : result A) : M A :=
  match r with
  | Ok a => ret a
  | Raise e => raise e
  end.

Definition modify_registry (g : list family -> list family) : M unit :=
  fun st => (Ok tt, {| cookies := cookies st;
                       registry := g (registry st);
                       requests := requests st |}).

Definition log_request (r : request) : M unit :=
  fun st => (Ok tt, {| cookies := cookies st;
                       registry := registry st;
                       requests := requests st ++ [r] |}).

(** [Gauge(name, help, labelnames, registry=registry)]; the handle it
    returns is the family's name, unique within the registry. *)
Definition new_family (name help : string) (labelnames : list string)
  : family :=
  {| f_name := name; f_help := help; f_labelnames := labelnames;
     f_children := match labelnames with
                   | [] => [([], zero)]
                   | _ => []
                   end |}.

Definition Gauge (name help : string) (labelnames : list string)
  : M string :=
  fun st =>
    if registered name (registry st) then (Raise ValueError, st)
    else (Ok name, {| cookies := cookies st;
                      registry :=
                        registry st ++ [new_family name help labelnames];
                      requests := requests st |}).

(** [g.labels] applied to the label dict: the child for these label
    values, created at 0.0 when the family does not have it yet. *)
Definition labels (g : string) (kv : list (string * string))
  : M (string * list string) :=
  modify_registry (on_family g (add_child (map snd kv))) ;;
  ret (g, map snd kv).

(** [child.set(v)] for a float [v]. *)
Definition set (child : string * list string) (v : spec_float) : M unit :=
  modify_registry (on_family (fst child) (set_child (snd child) v)).

(** [child.set(n)] for an int [n]: [float(n)] may overflow. *)
Definition set_int (child : string * list string) (n : Z) : M unit :=
  v <- or_raise OverflowError (float_of_int n) ;;
  set child v.

(** ** Session authenticator and XML fetcher *)

Definition add_cookies (cs : list string) : M unit :=
  fun st => (Ok tt, {| cookies := cookies st ++ cs;
                       registry := registry st;
                       requests := requests st |}).

Definition has_cookie (n : string) : M bool :=
  fun st => (Ok (existsb (String.eqb n) (cookies st)), st).

(** [login(session)]: the status of the response is never looked at. *)
Definition login (dev : modem) : M bool :=
  log_request PostLogin ;;
  match login_xml dev with
  | NoReply => raise ConnectionError
  | Reply _ set_cookies =>
      add_cookies set_cookies ;;
      tok <- has_cookie "sessionToken" ;;
      if tok then ret true else raise LoginError
  end.

(** [resp.raise_for_status()]. *)
Definition raise_for_status (status : Z) : M unit :=
  if (400 <=? status) && (status <? 600) then raise (HTTPError status)
  else ret tt.

Definition fetch_xml (dev : modem) (fun_num : Z) : M xml_bytes :=
  log_request (PostGetter fun_num) ;;
  match getter_xml dev fun_num with
  | NoReply => raise ConnectionError
  | Reply status content => raise_for_status status ;; ret content
  end.

(** ** The metric normalizer and the orchestrator: [metrics] *)

(** [float(v or 0)]: a falsy [v] gives [float(0)]. *)
Definition float_or_0 (v : option string) : option spec_float :=
  match v with
  | Some (String c s) => Py.float (String c s)
  | _ => float_of_int 0
  end.

(** [1.0 if locked_val.lower() in ["1", "yes", "locked"] else 0.0]. *)
Definition lock_vocabulary : list string := ["1"; "yes"; "locked"].

Definition lock_value (locked_val : string) : spec_float :=
  if existsb (String.eqb (lower locked_val)) lock_vocabulary
  then one else zero.

(** A labelled gauge, built, addressed and set in one statement:
    [Gauge(name, help, labels.keys(), registry=registry)
       .labels(...).set(v)]. *)
Definition gauge_set (name help : string) (kv : list (string * string))
  (v : spec_float) : M unit :=
  g <- Gauge name help (map fst kv) ;;
  child <- labels g kv ;;
  set child v.

Definition gauge_set_int (name help : string) (kv : list (string * string))
  (n : Z) : M unit :=
  g <- Gauge name help (map fst kv) ;;
  child <- labels g kv ;;
  set_int child n.

Definition ds_labels (ds : ds_record) : list (string * string) :=
  [ ("channel", or_str (ds_chid ds) "unknown");
    ("modulation", or_str (ds_modulation ds) "unknown") ].

(** The body of [for ds in parse_downstream(ds_xml)]. *)
Definition downstream_channel (ds : ds_record) : M unit :=
  let kv := ds_labels ds in
  try_ValueError (
    power <- or_raise ValueError (float_or_0 (ds_power ds)) ;;
    gauge_set "modem_downstream_power_dbmv" "Downstream Power" kv power) ;;
  try_ValueError (
    snr <- or_raise ValueError (float_or_0 (ds_snr ds)) ;;
    gauge_set "modem_downstream_snr_db" "Downstream SNR" kv snr) ;;
  try_ValueError (
    corrected <- or_raise ValueError (Py.int (ds_corrected ds)) ;;
    uncorrectables <- or_raise ValueError (Py.int (ds_uncorrectables ds)) ;;
    gauge_set_int "modem_downstream_corrected" "Corrected Codewords"
      kv corrected ;;
    gauge_set_int "modem_downstream_uncorrectable" "Uncorrectable Codewords"
      kv uncorrectables) ;;
  let locked_val := or_str (ds_locked ds) "" in
  gauge_set "modem_downstream_locked" "Channel Locked (1 if locked)" kv
    (lock_value locked_val).

Definition us_labels (us : us_record) : list (string * string) :=
  [ ("channel", or_str (us_usid us) "unknown");
    ("type", or_str (Some (us_type us)) "unknown") ].

(** The body of [for us in parse_upstream(us_xml)]. *)
Definition upstream_channel (us : us_record) : M unit :=
  let kv := us_labels us in
  try_ValueError (
    power <- or_raise ValueError (float_or_0 (us_power us)) ;;
    gauge_set "modem_upstream_power_dbmv" "Upstream Power" kv power) ;;
  try_ValueError (
    freq <- or_raise ValueError (float_or_0 (us_frequency us)) ;;
    gauge_set "modem_upstream_frequency_hz" "Upstream Frequency" kv freq) ;;
  let locked_val := or_str (us_locked us) "" in
  gauge_set "modem_upstream_locked" "Channel Locked (1 if locked)" kv
    (lock_value locked_val).

(** [for ds in parse_downstream(ds_xml): ...]: resolver and normalizer
    for one downstream payload. *)
Definition for_downstream (ds_xml : xml_bytes) : M unit :=
  records <- lift (parse_downstream ds_xml) ;;
  for_each records downstream_channel.

(** [for us in parse_upstream(us_xml): ...]. *)
Definition for_upstream (us_xml : xml_bytes) : M unit :=
  records <- lift (parse_upstream us_xml) ;;
  for_each records upstream_channel.

(** One turn of [for fun in [9, 10]]. *)
Definition downstream_group (dev : modem) (fun_num : Z) : M unit :=
  try_Exception (
    ds_xml <- fetch_xml dev fun_num ;;
    for_downstream ds_xml).

(** One turn of [for fun in [6, 11]]. *)
Definition upstream_group (dev : modem) (fun_num : Z) : M unit :=
  try_Exception (
    us_xml <- fetch_xml dev fun_num ;;
    for_upstream us_xml).

(** The uptime gauge, for a truthy [cm_system_uptime]. *)
Definition uptime_metric (uptime_field : string) : M unit :=
  uptime_str <- or_raise IndexError (split_first uptime_field) ;;
  try_ValueError (
    uptime <- or_raise ValueError (Py.float uptime_str) ;;
    g <- Gauge "modem_system_uptime_seconds" "System Uptime" [] ;;
    set (g, []) uptime).

(** The status block, the body of the second [try] of [metrics]. *)
Definition status_metrics (dev : modem) : M unit :=
  status_xml <- fetch_xml dev 1 ;;
  status <- lift (parse_status status_xml) ;;
  match dict_get status "cm_system_uptime" with
  | Some (String c s) => uptime_metric (String c s)
  | _ => ret tt
  end ;;
  match dict_get status "cm_docsis_mode" with
  | Some mode =>
      g <- Gauge "modem_docsis_mode" "DOCSIS mode (1 for 3.1, 0 otherwise)"
             [] ;;
      set (g, []) (if contains "3.1" mode then one else zero)
  | None => ret tt
  end.

(** What the handler answers: a status code and a body, either a comment
    line naming the failure, the exposition of the registry, or the error
    page of the framework for an exception no handler caught. *)
Inductive body : Type :=
  | LoginFailed (e : exn)       (* "# Modem login failed: ..." *)
  | StatusFailed (e : exn)      (* "# Failed to get status: ..." *)
  | Exposition (samples : list sample)
  | Uncaught (e : exn).

Record response : Type := Response { status_code : Z; content : body }.

Definition downstream_funs : list Z := [9; 10].
Definition upstream_funs : list Z := [6; 11].

(** The two channel loops, over given lists of function numbers. *)
Definition channel_groups (dfs ufs : list Z) (dev : modem) : M unit :=
  for_each dfs (downstream_group dev) ;;
  for_each ufs (upstream_group dev).

(** The handler with the function numbers of its two loops as
    parameters; the final state is returned beside the response. *)
Definition metrics_over (dfs ufs : list Z) (dev : modem)
  : response * pass_state :=
  match login dev fresh_state with
  | (Raise e, st1) => (Response 500 (LoginFailed e), st1)
  | (Ok _, st1) =>
      match status_metrics dev st1 with
      | (Raise e, st2) => (Response 500 (StatusFailed e), st2)
      | (Ok _, st2) =>
          match channel_groups dfs ufs dev st2 with
          | (Ok _, st3) =>
              (Response 200 (Exposition (collect (registry st3))), st3)
          | (Raise e, st3) => (Response 500 (Uncaught e), st3)
          end
      end
  end.

(** [metrics()]: downstream over [9, 10], upstream over [6, 11]. *)
Definition metrics (dev : modem) : response * pass_state :=
  metrics_over downstream_funs upstream_funs dev.

(** * Vocabulary of the properties *)

Definition with_registry (st : pass_state) (reg : list family)
  : pass_state :=
  {| cookies := cookies st; registry := reg; requests := requests st |}.

(** The family a labelled gauge statement leaves behind: one child. *)
Definition single (name help : string) (kv : list (string * string))
  (v : spec_float) : family :=
  {| f_name := name; f_help := help; f_labelnames := map fst kv;
     f_children := [(map snd kv, v)] |}.

Definition push (st : pass_state) (f : family) : pass_state :=
  with_registry st (registry st ++ [f]).

(** [float(n)] for an [int] that fits. *)
Definition to_float (z : Z) : spec_float :=
  binary_normalize prec emax z 0 false.

Definition fits (z : Z) : Prop := float_of_int z = Some (to_float z).

(** The family of a float field: none when the coercion failed. *)
Definition float_family (n h : string) (kv : list (string * string))
  (o : option spec_float) : list family :=
  match o with
  | Some v => [single n h kv v]
  | None => []
  end.

(** The families of the two counters: both or none. *)
Definition counter_families (kv : list (string * string))
  (oc ou : option Z) : list family :=
  match oc, ou with
  | Some c, Some u =>
      [ single "modem_downstream_corrected" "Corrected Codewords" kv
          (to_float c);
        single "modem_downstream_uncorrectable" "Uncorrectable Codewords" kv
          (to_float u) ]
  | _, _ => []
  end.

(** The families a downstream record adds to a registry that holds none
    of the downstream names, when its counters fit a float. *)
Definition downstream_families (ds : ds_record) : list family :=
  float_family "modem_downstream_power_dbmv" "Downstream Power"
    (ds_labels ds) (float_or_0 (ds_power ds))
  ++ float_family "modem_downstream_snr_db" "Downstream SNR"
       (ds_labels ds) (float_or_0 (ds_snr ds))
  ++ counter_families (ds_labels ds)
       (Py.int (ds_corrected ds)) (Py.int (ds_uncorrectables ds))
  ++ [ single "modem_downstream_locked" "Channel Locked (1 if locked)"
         (ds_labels ds) (lock_value (or_str (ds_locked ds) "")) ].

(** The families an upstream record adds to a registry that holds none
    of the upstream names. *)
Definition upstream_families (us : us_record) : list family :=
  float_family "modem_upstream_power_dbmv" "Upstream Power"
    (us_labels us) (float_or_0 (us_power us))
  ++ float_family "modem_upstream_frequency_hz" "Upstream Frequency"
       (us_labels us) (float_or_0 (us_frequency us))
  ++ [ single "modem_upstream_locked" "Channel Locked (1 if locked)"
         (us_labels us) (lock_value (or_str (us_locked us) "")) ].

Definition downstream_names : list string :=
  [ "modem_downstream_power_dbmv"; "modem_downstream_snr_db";
    "modem_downstream_corrected"; "modem_downstream_uncorrectable";
    "modem_downstream_locked" ].

Definition upstream_names : list string :=
  [ "modem_upstream_power_dbmv"; "modem_upstream_frequency_hz";
    "modem_upstream_locked" ].

(** None of the names is registered yet: the state in which the first
    record of a direction is processed. *)
Definition unregistered (names : list string) (st : pass_state) : Prop :=
  forall n, In n names -> registered n (registry st) = false.

(** The counters of the record, where they parse, fit a float. *)
Definition counters_fit (ds : ds_record) : Prop :=
  (forall c, Py.int (ds_corrected ds) = Some c -> fits c) /\
  (forall u, Py.int (ds_uncorrectables ds) = Some u -> fits u).

(** One sample, by its four components. *)
Definition sample_of (name help : string) (kv : list (string * string))
  (v : spec_float) : sample :=
  {| s_name := name; s_help := help; s_labels := kv; s_value := v |}.

(** Some sample of the registry carries the metric name [n]. *)
Definition emitted (n : string) (reg : list family) : bool :=
  existsb (fun s => String.eqb (s_name s) n) (collect reg).

Definition is_some {A} (o : option A) : bool :=
  match o with Some _ => true | None => false end.

(** The samples of a response: those of its exposition, none for a
    failure page. *)
Definition exposed (r : response) : list sample :=
  match content r with
  | Exposition samples => samples
  | _ => []
  end.

Definition names_exposed (r : response) : list string :=
  map s_name (exposed r).

(** ** Concrete payloads *)

Definition leaf (tag text : string) : element := Element tag (Some text) [].

Definition empty_doc : xml_bytes := Doc (Element "root" None []).

Definition status_doc (uptime : string) : xml_bytes :=
  Doc (Element "root" None
         [leaf "cm_system_uptime" uptime; leaf "cm_docsis_mode" "3.1"]).

(** A modem that grants the session token, reports [uptime] in its status
    and answers function number [fun_num] with [content]; every other
    function number answers with a document that holds no channel. *)
Definition modem_serving (uptime : string) (fun_num : Z)
  (content : xml_bytes) : modem :=
  {| login_xml := Reply 200 ["sessionToken"];
     getter_xml := fun f =>
       if f =? 1 then Reply 200 (status_doc uptime)
       else if f =? fun_num then Reply 200 content
       else Reply 200 empty_doc |}.

Definition channels (l : list element) : xml_bytes :=
  Doc (Element "root" None l).

(** A legacy downstream channel whose uncorrectable counter is not a
    number; every other numeric field parses. *)
Definition ds_bad_uncorrectable : element :=
  Element "downstream" None
    [ leaf "chid" "1"; leaf "IsLocked" "Locked"; leaf "mod" "QAM256";
      leaf "freq" "603000000"; leaf "pow" "3.5"; leaf "snr" "40.1";
      leaf "correctable" "5"; leaf "uncorrectable" "n/a" ].

(** The mirror image: only the corrected counter is not a number. *)
Definition ds_bad_corrected : element :=
  Element "downstream" None
    [ leaf "chid" "1"; leaf "IsLocked" "Locked"; leaf "mod" "QAM256";
      leaf "freq" "603000000"; leaf "pow" "3.5"; leaf "snr" "40.1";
      leaf "correctable" "n/a"; leaf "uncorrectable" "7" ].

(** A downstream channel that reports no power under either name. *)
Definition ds_no_power : element :=
  Element "downstream" None
    [ leaf "chid" "3"; leaf "IsLocked" "Locked"; leaf "mod" "QAM256";
      leaf "freq" "615000000"; leaf "snr" "38.0";
      leaf "correctable" "12"; leaf "uncorrectable" "3" ].

(** A downstream channel whose power is not a number. *)
Definition ds_bad_power : element :=
  Element "downstream" None
    [ leaf "chid" "4"; leaf "IsLocked" "Locked"; leaf "mod" "QAM256";
      leaf "freq" "621000000"; leaf "pow" "n/a"; leaf "snr" "38.0";
      leaf "correctable" "12"; leaf "uncorrectable" "3" ].

(** Two channels of one downstream payload, both locked and both with
    every numeric field in order. *)
Definition ds_first : element :=
  Element "downstream" None
    [ leaf "chid" "1"; leaf "IsLocked" "Locked"; leaf "mod" "QAM256";
      leaf "freq" "603000000"; leaf "pow" "3.5"; leaf "snr" "40.1";
      leaf "correctable" "5"; leaf "uncorrectable" "0" ].

Definition ds_second : element :=
  Element "downstream" None
    [ leaf "chid" "2"; leaf "IsLocked" "Locked"; leaf "mod" "QAM256";
      leaf "freq" "609000000"; leaf "pow" "3.1"; leaf "snr" "39.8";
      leaf "correctable" "9"; leaf "uncorrectable" "1" ].

Definition named (n : string) (s : sample) : bool := String.eqb (s_name s) n.

(** ** The fallback chains, field by field

    The logical fields that the resolvers read under two names, with the
    name tried first (the legacy one) and the name tried second. *)
Inductive chained_field : Type :=
  | DsChid | DsLocked | DsModulation | DsFrequency | DsPower | DsSnr
  | DsCorrected | DsUncorrectables
  | UsLocked | UsFrequency | UsBandwidth | UsPower.

Definition legacy_name (f : chained_field) : string :=
  match f with
  | DsChid => "chid" | DsLocked => "IsLocked" | DsModulation => "mod"
  | DsFrequency => "freq" | DsPower => "pow" | DsSnr => "snr"
  | DsCorrected => "correctable" | DsUncorrectables => "uncorrectable"
  | UsLocked => "usLocked" | UsFrequency => "freq"
  | UsBandwidth => "bandwidth" | UsPower => "power"
  end.

Definition modern_name (f : chained_field) : string :=
  match f with
  | DsChid => "dsid" | DsLocked => "ofdmIsLocked"
  | DsModulation => "ofdmModulation" | DsFrequency => "plcFrequency"
  | DsPower => "PLCPower" | DsSnr => "PlcScAvgMer"
  | DsCorrected => "ofdmCorrected"
  | DsUncorrectables => "ofdmUncorrectable"
  | UsLocked => "ofdmaLocked" | UsFrequency => "centerFreq"
  | UsBandwidth => "width" | UsPower => "repPower1_6"
  end.

(** What the resolver puts in the record for the field. *)
Definition resolved (f : chained_field) (e : element) : option string :=
  match f with
  | DsChid => ds_chid (downstream_entry e)
  | DsLocked => ds_locked (downstream_entry e)
  | DsModulation => ds_modulation (downstream_entry e)
  | DsFrequency => ds_frequency (downstream_entry e)
  | DsPower => ds_power (downstream_entry e)
  | DsSnr => ds_snr (downstream_entry e)
  | DsCorrected => Some (ds_corrected (downstream_entry e))
  | DsUncorrectables => Some (ds_uncorrectables (downstream_entry e))
  | UsLocked => us_locked (upstream_entry e)
  | UsFrequency => us_frequency (upstream_entry e)
  | UsBandwidth => us_bandwidth (upstream_entry e)
  | UsPower => us_power (upstream_entry e)
  end.

(** A downstream element that carries the legacy identifier with no text
    and the modern identifier with a value. *)
Definition ds_empty_chid : element :=
  Element "downstream" None [Element "chid" None []; leaf "dsid" "7"].

(** A downstream element that carries both identifiers with a value. *)
Definition ds_both_ids : element :=
  Element "downstream" None [leaf "dsid" "7"; leaf "chid" "1"].

(** An upstream element of the modern schema that also carries a [type]
    child of its own. *)
Definition us_with_type_child : element :=
  Element "upstream" None
    [leaf "usid" "1"; leaf "type" "SC-QAM"; leaf "ofdmaLocked" "1"].

(** A computation only ever appends to the log of requests. *)
Definition extends_log {A} (m : M A) : Prop :=
  forall st, exists more, requests (snd (m st)) = requests st ++ more.

(** A modem that answers the login with status 200 and a cookie that is
    not the session token. *)
Definition modem_without_token : modem :=
  {| login_xml := Reply 200 ["lang"];
     getter_xml := fun _ => Reply 200 (status_doc "123456 seconds") |}.

(** A modem whose login answers 403 and still sets the session token. *)
Definition modem_forbidden_with_token : modem :=
  {| login_xml := Reply 403 ["sessionToken"];
     getter_xml := fun f =>
       if f =? 1 then Reply 200 (status_doc "123456 seconds")
       else Reply 200 empty_doc |}.

(** ** Relating two runs

    [sim R m m']: from [R]-related states the two computations end with
    the same result, in [R]-related states. *)
Definition sim (R : pass_state -> pass_state -> Prop) {A} (m m' : M A)
  : Prop :=
  forall st st', R st st' ->
    fst (m st) = fst (m' st') /\ R (snd (m st)) (snd (m' st')).

(** Two states that differ at most in their log of requests. *)
Definition same_metrics (st st' : pass_state) : Prop :=
  cookies st = cookies st' /\ registry st = registry st'.

(** The fetch for a function number fails: no response, an error status,
    or a body that is not well-formed XML. *)
Definition fetch_fails (dev : modem) (fun_num : Z) : Prop :=
  match getter_xml dev fun_num with
  | NoReply => True
  | Reply status body =>
      (400 <= status < 600) \/ body = NotXML
  end.

(** A legacy upstream channel. *)
Definition us_legacy_channel : element :=
  Element "upstream" None
    [ leaf "usid" "1"; leaf "usLocked" "Locked"; leaf "freq" "36500000";
      leaf "bandwidth" "6400000"; leaf "power" "41.0" ].

(** A modem of the older generation whose downstream getters both fail
    (one with an error status, one with a body that is not XML) and whose
    upstream getter 11 answers with one channel. *)
Definition modem_downstream_down : modem :=
  {| login_xml := Reply 200 ["sessionToken"];
     getter_xml := fun f =>
       if f =? 1 then Reply 200 (status_doc "123456 seconds")
       else if f =? 9 then Reply 500 NotXML
       else if f =? 10 then Reply 200 NotXML
       else if f =? 11 then Reply 200 (channels [us_legacy_channel])
       else NoReply |}.

(** ** Synthetic payloads in the two schemas

    The values of one downstream channel, field by field; [None] is a
    field the payload does not carry. *)
Record ds_values : Type := {
  v_chid : option string;
  v_locked : option string;
  v_modulation : option string;
  v_frequency : option string;
  v_power : option string;
  v_snr : option string;
  v_corrected : option string;
  v_uncorrectables : option string
}.

Definition opt_leaf (tag : string) (v : option string) : list element :=
  match v with
  | Some s => [leaf tag s]
  | None => []
  end.

(** The channel written with the legacy names. *)
Definition ds_legacy (v : ds_values) : element :=
  Element "downstream" None
    (opt_leaf "chid" (v_chid v) ++ opt_leaf "IsLocked" (v_locked v)
     ++ opt_leaf "mod" (v_modulation v) ++ opt_leaf "freq" (v_frequency v)
     ++ opt_leaf "pow" (v_power v) ++ opt_leaf "snr" (v_snr v)
     ++ opt_leaf "correctable" (v_corrected v)
     ++ opt_leaf "uncorrectable" (v_uncorrectables v)).

(** The same channel written with the modern names. *)
Definition ds_modern (v : ds_values) : element :=
  Element "downstream" None
    (opt_leaf "dsid" (v_chid v) ++ opt_leaf "ofdmIsLocked" (v_locked v)
     ++ opt_leaf "ofdmModulation" (v_modulation v)
     ++ opt_leaf "plcFrequency" (v_frequency v)
     ++ opt_leaf "PLCPower" (v_power v) ++ opt_leaf "PlcScAvgMer" (v_snr v)
     ++ opt_leaf "ofdmCorrected" (v_corrected v)
     ++ opt_leaf "ofdmUncorrectable" (v_uncorrectables v)).

(** The values of one upstream channel. *)
Record us_values : Type := {
  w_usid : option string;
  w_locked : option string;
  w_frequency : option string;
  w_bandwidth : option string;
  w_power : option string
}.

Definition us_legacy (w : us_values) : element :=
  Element "upstream" None
    (opt_leaf "usid" (w_usid w) ++ opt_leaf "usLocked" (w_locked w)
     ++ opt_leaf "freq" (w_frequency w)
     ++ opt_leaf "bandwidth" (w_bandwidth w)
     ++ opt_leaf "power" (w_power w)).

Definition us_modern (w : us_values) : element :=
  Element "upstream" None
    (opt_leaf "usid" (w_usid w) ++ opt_leaf "ofdmaLocked" (w_locked w)
     ++ opt_leaf "centerFreq" (w_frequency w)
     ++ opt_leaf "width" (w_bandwidth w)
     ++ opt_leaf "repPower1_6" (w_power w)).

(** A label set without its [type] entry, and a sample without it. *)
Definition forget (kv : list (string * string)) : list (string * string) :=
  filter (fun p => negb (String.eqb (fst p) "type")) kv.

Definition forget_type (s : sample) : sample :=
  {| s_name := s_name s; s_help := s_help s;
     s_labels := forget (s_labels s); s_value := s_value s |}.

(** Two states whose registries hold the same names and the same samples
    up to the [type] label. *)
Definition type_blind (st st' : pass_state) : Prop :=
  map f_name (registry st) = map f_name (registry st') /\
  map forget_type (collect (registry st))
  = map forget_type (collect (registry st')).

(** One upstream channel with a lock state, for both schemas. *)
Definition us_sample_values : us_values :=
  {| w_usid := Some "1"; w_locked := Some "Locked";
     w_frequency := Some "36500000"; w_bandwidth := Some "6400000";
     w_power := Some "41.0" |}.

Definition ds_sample_values : ds_values :=
  {| v_chid := Some "1"; v_locked := Some "Locked";
     v_modulation := Some "QAM256"; v_frequency := Some "603000000";
     v_power := Some "3.5"; v_snr := Some "40.1";
     v_corrected := Some "5"; v_uncorrectables := Some "0" |}.

(** ** Vocabulary of the further properties *)

(** The error statuses of [raise_for_status]. *)
Definition is_error (status : Z) : bool :=
  (400 <=? status) && (status <? 600).

(** The success statuses under which the client hands the body over as
    the modem sent it: 200 to 299 without 204, whose body the client
    empties (as it does for 1xx and 304, while a 3xx with a location is
    followed). *)
Definition plain_success (status : Z) : bool :=
  (200 <=? status) && (status <? 300) && negb (status =? 204).

(** Two getter replies that the handler cannot tell apart: the same
    body, under the same status or under two statuses that are both
    plain successes. *)
Definition same_reply (r r' : reply xml_bytes) : Prop :=
  match r, r' with
  | NoReply, NoReply => True
  | Reply s c, Reply s' c' =>
      c = c' /\
      (s = s' \/ (plain_success s = true /\ plain_success s' = true))
  | _, _ => False
  end.

(** Two login replies that set the same cookies, under any status. *)
Definition same_login (r r' : reply (list string)) : Prop :=
  match r, r' with
  | NoReply, NoReply => True
  | Reply _ c, Reply _ c' => c = c'
  | _, _ => False
  end.

(** The statements of the status block that follow the fetch: lines
    125 to 144 of the handler. *)
Definition status_gauges (status_xml : xml_bytes) : M unit :=
  status <- lift (parse_status status_xml) ;;
  match dict_get status "cm_system_uptime" with
  | Some (String c s) => uptime_metric (String c s)
  | _ => ret tt
  end ;;
  match dict_get status "cm_docsis_mode" with
  | Some mode =>
      g <- Gauge "modem_docsis_mode" "DOCSIS mode (1 for 3.1, 0 otherwise)"
             [] ;;
      set (g, []) (if contains "3.1" mode then one else zero)
  | None => ret tt
  end.

(** A gauge without labels, built and set in one statement:
    [Gauge(name, help, registry=registry).set(v)]. *)
Definition plain_gauge_set (name help : string) (v : spec_float) : M unit :=
  g <- Gauge name help [] ;;
  set (g, []) v.

(** A computation keeps a property of the state. *)
Definition preserves (P : pass_state -> Prop) {A} (m : M A) : Prop :=
  forall st, P st -> P (snd (m st)).

Definition status_names : list string :=
  [ "modem_system_uptime_seconds"; "modem_docsis_mode" ].

(** The label sets the handler gives to a metric name: none for the
    status metrics, a channel and a modulation downstream, a channel and
    one of the two channel technologies upstream; no label value is
    empty. *)
Definition well_labelled (n : string) (kv : list (string * string))
  : Prop :=
  (In n status_names /\ kv = []) \/
  (In n downstream_names /\
   exists c m, kv = [("channel", c); ("modulation", m)]
               /\ c <> "" /\ m <> "") \/
  (In n upstream_names /\
   exists c t, kv = [("channel", c); ("type", t)]
               /\ c <> "" /\ (t = "OFDMA" \/ t = "SC-QAM")).

Definition well_labelled_sample (s : sample) : Prop :=
  well_labelled (s_name s) (s_labels s).

(** Every family of the registry holds one child, well labelled, and no
    two families share a name. *)
Definition one_child (f : family) : Prop :=
  exists vs v, f_children f = [(vs, v)]
               /\ well_labelled (f_name f) (combine (f_labelnames f) vs).

Definition tidy (st : pass_state) : Prop :=
  NoDup (map f_name (registry st)) /\ Forall one_child (registry st).

(** The getter POSTs of a pass that gets past login and status. *)
Definition all_getters : list request :=
  map PostGetter (1 :: downstream_funs ++ upstream_funs).

(** A status document with a nested, later duplicate of the uptime. *)
Definition status_with_duplicates : element :=
  Element "root" None
    [ Element "cm_status" None
        [ leaf "cm_system_uptime" "10 days"; leaf "cm_docsis_mode" "3.0" ];
      leaf "cm_system_uptime" "99 days" ].

(** Two modems that differ in status codes only: the login answers 200
    on one and 403 on the other, the getters answer 200 on one and 201
    or 206 on the other. *)
Definition modem_plain : modem :=
  {| login_xml := Reply 200 ["sessionToken"];
     getter_xml := fun f =>
       if f =? 1 then Reply 200 (status_doc "123456 seconds")
       else if f =? 10 then Reply 200 (channels [ds_first])
       else Reply 404 NotXML |}.

Definition modem_odd_statuses : modem :=
  {| login_xml := Reply 403 ["sessionToken"];
     getter_xml := fun f =>
       if f =? 1 then Reply 201 (status_doc "123456 seconds")
       else if f =? 10 then Reply 206 (channels [ds_first])
       else Reply 404 NotXML |}.

(** A modem that grants the session and then fails on the status getter
    while its channel getters would answer. *)
Definition modem_status_down : modem :=
  {| login_xml := Reply 200 ["sessionToken"];
     getter_xml := fun f =>
       if f =? 1 then Reply 503 NotXML
       else Reply 200 (channels [ds_first]) |}.

(** The ten metric names of the exporter. *)
Definition metric_names : list string :=
  status_names ++ downstream_names ++ upstream_names.

(** The family of the DOCSIS gauge for a mode string. *)
Definition docsis_family (mode : string) : family :=
  single "modem_docsis_mode" "DOCSIS mode (1 for 3.1, 0 otherwise)" []
    (if contains "3.1" mode then one else zero).

(** The state in which the status block starts its gauges: logged in
    with cookies [cs], the getter for function number 1 posted. *)
Definition after_status_fetch (cs : list string) : pass_state :=
  {| cookies := cs; registry := [];
     requests := [PostLogin; PostGetter 1] |}.

(** A modem whose status is [root] and whose channel getters all fail. *)
Definition modem_status_only (root : element) : modem :=
  {| login_xml := Reply 200 ["sessionToken"];
     getter_xml := fun f =>
       if f =? 1 then Reply 200 (Doc root) else NoReply |}.

(** A status document without any DOCSIS mode. *)
Definition status_without_mode : element :=
  Element "root" None [leaf "cm_system_uptime" "7 days"].

(** A third channel of a downstream payload. *)
Definition ds_third : element :=
  Element "downstream" None
    [ leaf "chid" "3"; leaf "IsLocked" "Locked"; leaf "mod" "QAM256";
      leaf "freq" "615000000"; leaf "pow" "2.9"; leaf "snr" "39.5";
      leaf "correctable" "2"; leaf "uncorrectable" "0" ].

(** Two downstream records that differ at most in their frequency, two
    upstream records that differ at most in their bandwidth. *)
Definition same_but_frequency (ds ds' : ds_record) : Prop :=
  ds_chid ds = ds_chid ds' /\ ds_locked ds = ds_locked ds' /\
  ds_modulation ds = ds_modulation ds' /\ ds_power ds = ds_power ds' /\
  ds_snr ds = ds_snr ds' /\ ds_corrected ds = ds_corrected ds' /\
  ds_uncorrectables ds = ds_uncorrectables ds'.

Definition same_but_bandwidth (us us' : us_record) : Prop :=
  us_usid us = us_usid us' /\ us_locked us = us_locked us' /\
  us_type us = us_type us' /\ us_frequency us = us_frequency us' /\
  us_power us = us_power us'.

(** The registry grew from [reg0] by families of channel metrics only. *)
Definition grew_by_channels (reg0 : list family) (st : pass_state) : Prop :=
  exists more,
    registry st = reg0 ++ more /\
    Forall (fun f => In (f_name f) (downstream_names ++ upstream_names))
      more.

(** Two status documents that agree on uptime and DOCSIS mode only. *)
Definition status_rich : element :=
  Element "root" None
    [ leaf "cm_connected" "yes"; leaf "HwModel" "SB8200";
      leaf "cm_system_uptime" "7 days"; leaf "cm_docsis_mode" "3.1";
      leaf "cm_mac_addr" "00:11:22:33:44:55"; leaf "snr" "40" ].

Definition status_bare : element :=
  Element "root" None
    [ leaf "cm_docsis_mode" "3.1"; leaf "cm_system_uptime" "7 days" ].

(** A legacy upstream channel whose lock field is spelt in capitals. *)
Definition us_locked_capitals : element :=
  Element "upstream" None
    [ leaf "usid" "4"; leaf "usLocked" "LOCKED"; leaf "power" "41.0" ].

(** A second legacy upstream channel, every field in order. *)
Definition us_legacy_second : element :=
  Element "upstream" None
    [ leaf "usid" "2"; leaf "usLocked" "Locked"; leaf "freq" "30100000";
      leaf "bandwidth" "6400000"; leaf "power" "40.5" ].

(** A modem whose downstream getters both fail and whose upstream getter
    11 answers with two channels. *)
Definition modem_two_upstream : modem :=
  {| login_xml := Reply 200 ["sessionToken"];
     getter_xml := fun f =>
       if f =? 1 then Reply 200 (status_doc "123456 seconds")
       else if f =? 9 then Reply 500 NotXML
       else if f =? 10 then Reply 200 NotXML
       else if f =? 11
            then Reply 200 (channels [us_legacy_channel; us_legacy_second])
       else NoReply |}.

(** The name and the labels of a sample. *)
Definition name_and_labels (s : sample)
  : string * list (string * string) :=
  (s_name s, s_labels s).

(** * Properties *)

(** ** Running the registry operations *)

Lemma values_eqb_refl (vs : list string) : values_eqb vs vs = true.
Proof.
  unfold values_eqb. destruct (list_eq_dec string_dec vs vs); congruence.
Qed.

Lemma on_family_unregistered n g reg :
  registered n reg = false -> on_family n g reg = reg.
Proof.
  unfold registered, on_family. induction reg as [|f reg IH]; simpl; auto.
  intros H. apply orb_false_iff in H as [Hf Hr].
  rewrite Hf, IH; auto.
Qed.

Lemma on_family_last n g reg f :
  registered n reg = false -> f_name f = n ->
  on_family n g (reg ++ [f]) = reg ++ [g f].
Proof.
  intros Hreg Hn. unfold on_family. rewrite map_app. simpl.
  rewrite Hn, String.eqb_refl. f_equal.
  apply on_family_unregistered, Hreg.
Qed.

Lemma set_added_child n h kv v :
  set_child (map snd kv) v (add_child (map snd kv) (new_family n h (map fst kv)))
  = single n h kv v.
Proof.
  destruct kv as [|[k x] kv]; unfold add_child, has_child, set_child, single;
    simpl; [reflexivity|].
  change (x :: map snd kv) with (map snd ((k, x) :: kv)).
  now rewrite values_eqb_refl.
Qed.

Lemma gauge_set_run n h kv v st :
  gauge_set n h kv v st =
  if registered n (registry st) then (Raise ValueError, st)
  else (Ok tt, push st (single n h kv v)).
Proof.
  unfold gauge_set, bind, Gauge.
  destruct (registered n (registry st)) eqn:Hreg; [reflexivity|].
  unfold labels, set, bind, modify_registry, ret, push, with_registry. simpl.
  rewrite on_family_last by (auto; reflexivity).
  rewrite on_family_last by (auto; unfold add_child; simpl;
    destruct (has_child _ _); reflexivity).
  now rewrite set_added_child.
Qed.

(** The same statement with an [int] value: the conversion to float
    comes last, after the child was created at 0.0. *)
Lemma gauge_set_int_run n h kv z st :
  gauge_set_int n h kv z st =
  if registered n (registry st) then (Raise ValueError, st)
  else match float_of_int z with
       | Some v => (Ok tt, push st (single n h kv v))
       | None => (Raise OverflowError, push st (single n h kv zero))
       end.
Proof.
  unfold gauge_set_int, bind, Gauge.
  destruct (registered n (registry st)) eqn:Hreg; [reflexivity|].
  unfold labels, set_int, set, bind, modify_registry, ret, push,
    with_registry, or_raise. simpl.
  rewrite on_family_last by (auto; reflexivity).
  assert (Hadd : add_child (map snd kv) (new_family n h (map fst kv))
                 = single n h kv zero).
  { destruct kv as [|[k x] kv]; unfold add_child, has_child, single;
      simpl; reflexivity. }
  rewrite Hadd.
  destruct (float_of_int z) as [v|]; unfold raise, ret; simpl.
  - rewrite on_family_last by (auto; reflexivity).
    unfold set_child, single. simpl. now rewrite values_eqb_refl.
  - reflexivity.
Qed.

Lemma registered_app n reg reg' :
  registered n (reg ++ reg') = registered n reg || registered n reg'.
Proof. unfold registered. apply existsb_app. Qed.

(** A [try ... except ValueError: pass] around a coercion and a gauge
    statement never raises; it adds the family when the coercion
    succeeds and the name is new. *)
Lemma try_float_gauge (o : option spec_float) n h kv st :
  try_ValueError (x <- or_raise ValueError o ;; gauge_set n h kv x) st =
  (Ok tt,
   match o with
   | Some v =>
       if registered n (registry st) then st else push st (single n h kv v)
   | None => st
   end).
Proof.
  unfold try_ValueError, bind. destruct o as [v|]; simpl; [|reflexivity].
  rewrite gauge_set_run. now destruct (registered n (registry st)).
Qed.

Ltac name_in_list :=
  simpl; repeat (first [left; reflexivity | right]).

Ltac settle_registered H :=
  unfold push, with_registry; simpl;
  repeat (first [rewrite H by name_in_list | rewrite registered_app];
          simpl).

Lemma unregistered_fresh names : unregistered names fresh_state.
Proof. intros n _. reflexivity. Qed.

Lemma upstream_channel_fresh us st :
  unregistered upstream_names st ->
  upstream_channel us st =
  (Ok tt, with_registry st (registry st ++ upstream_families us)).
Proof.
  intros H. unfold upstream_channel, upstream_families.
  unfold bind at 1. rewrite try_float_gauge.
  unfold bind at 1. rewrite try_float_gauge.
  rewrite gauge_set_run.
  destruct (float_or_0 (us_power us)) as [p|];
    destruct (float_or_0 (us_frequency us)) as [q|];
    settle_registered H;
    unfold with_registry; repeat rewrite <- app_assoc; reflexivity.
Qed.

(** The counters block adds nothing and does not raise when either
    counter fails to parse, whatever the registry holds. *)
Lemma counters_block_unparsed (oc ou : option Z) kv st :
  oc = None \/ ou = None ->
  try_ValueError (
    corrected <- or_raise ValueError oc ;;
    uncorrectables <- or_raise ValueError ou ;;
    gauge_set_int "modem_downstream_corrected" "Corrected Codewords"
      kv corrected ;;
    gauge_set_int "modem_downstream_uncorrectable" "Uncorrectable Codewords"
      kv uncorrectables) st
  = (Ok tt, st).
Proof.
  intros [-> | ->]; unfold try_ValueError, bind; simpl;
    [|destruct oc]; reflexivity.
Qed.

Lemma counters_block_fresh c u kv st :
  registered "modem_downstream_corrected" (registry st) = false ->
  registered "modem_downstream_uncorrectable" (registry st) = false ->
  fits c -> fits u ->
  try_ValueError (
    corrected <- or_raise ValueError (Some c) ;;
    uncorrectables <- or_raise ValueError (Some u) ;;
    gauge_set_int "modem_downstream_corrected" "Corrected Codewords"
      kv corrected ;;
    gauge_set_int "modem_downstream_uncorrectable" "Uncorrectable Codewords"
      kv uncorrectables) st
  = (Ok tt, with_registry st (registry st ++ counter_families kv (Some c) (Some u))).
Proof.
  intros Hc Hu Fc Fu. unfold try_ValueError, bind. simpl.
  rewrite gauge_set_int_run, Hc, Fc.
  rewrite gauge_set_int_run. unfold push, with_registry. simpl.
  rewrite registered_app, Hu, Fu. simpl.
  now rewrite <- app_assoc.
Qed.

Lemma downstream_channel_fresh ds st :
  unregistered downstream_names st -> counters_fit ds ->
  downstream_channel ds st =
  (Ok tt, with_registry st (registry st ++ downstream_families ds)).
Proof.
  intros H [Fc Fu]. unfold downstream_channel, downstream_families.
  unfold bind at 1. rewrite try_float_gauge.
  unfold bind at 1. rewrite try_float_gauge.
  unfold bind at 1.
  destruct (float_or_0 (ds_power ds)) as [p|];
    destruct (float_or_0 (ds_snr ds)) as [q|];
    settle_registered H.
  all: destruct (Py.int (ds_corrected ds)) as [c|] eqn:Ec;
    destruct (Py.int (ds_uncorrectables ds)) as [u|] eqn:Eu;
    [ rewrite counters_block_fresh
        by (auto; settle_registered H; reflexivity)
    | rewrite counters_block_unparsed by auto ..].
  all: cbv iota beta; rewrite gauge_set_run; settle_registered H;
    repeat rewrite <- app_assoc; reflexivity.
Qed.

Lemma combine_fst_snd_id {A B} (kv : list (A * B)) :
  combine (map fst kv) (map snd kv) = kv.
Proof. induction kv as [|[a b] kv IH]; simpl; congruence. Qed.

Lemma collect_app reg reg' : collect (reg ++ reg') = collect reg ++ collect reg'.
Proof. unfold collect. apply flat_map_app. Qed.

Lemma collect_single n h kv v :
  collect [single n h kv v] = [sample_of n h kv v].
Proof.
  unfold collect, family_samples, single, sample_of. simpl.
  now rewrite combine_fst_snd_id.
Qed.

Lemma emitted_app n reg reg' :
  emitted n (reg ++ reg') = emitted n reg || emitted n reg'.
Proof. unfold emitted. rewrite collect_app. apply existsb_app. Qed.

Lemma unregistered_not_emitted n reg :
  registered n reg = false -> emitted n reg = false.
Proof.
  unfold registered, emitted, collect.
  induction reg as [|f reg IH]; simpl; auto.
  intros H. apply orb_false_iff in H as [Hf Hr].
  rewrite existsb_app, IH, orb_false_r by assumption.
  unfold family_samples. induction (f_children f) as [|ch chs IHc]; simpl; auto.
  now rewrite Hf, IHc.
Qed.

(** What the conditional expression around [float] decides. *)
Lemma float_or_0_falsy v : truthy v = false -> float_or_0 v = Some zero.
Proof. destruct v as [[|c s]|]; simpl; intros; try discriminate; reflexivity. Qed.

Lemma float_or_0_nonempty s :
  s <> "" -> float_or_0 (Some s) = Py.float s.
Proof. destruct s; simpl; congruence. Qed.

(** ** Isolation of the numeric fields of one record *)

(** On the only channel of a pass, an uncorrectable counter that is not a
    number takes the corrected-counter sample away with it, and the other
    way round: the exposition names neither counter. *)
Lemma counters_suppress_each_other :
  Py.int (ds_corrected (downstream_entry ds_bad_uncorrectable)) = Some 5 /\
  Py.int (ds_uncorrectables (downstream_entry ds_bad_uncorrectable)) = None /\
  names_exposed
    (fst (metrics (modem_serving "123456 seconds" 9
                     (channels [ds_bad_uncorrectable]))))
  = [ "modem_system_uptime_seconds"; "modem_docsis_mode";
      "modem_downstream_power_dbmv"; "modem_downstream_snr_db";
      "modem_downstream_locked" ] /\
  Py.int (ds_corrected (downstream_entry ds_bad_corrected)) = None /\
  Py.int (ds_uncorrectables (downstream_entry ds_bad_corrected)) = Some 7 /\
  names_exposed
    (fst (metrics (modem_serving "123456 seconds" 9
                     (channels [ds_bad_corrected]))))
  = [ "modem_system_uptime_seconds"; "modem_docsis_mode";
      "modem_downstream_power_dbmv"; "modem_downstream_snr_db";
      "modem_downstream_locked" ].
Proof. repeat split; vm_compute; reflexivity. Qed.

Lemma emitted_float_family n m h kv o :
  emitted n (float_family m h kv o) = is_some o && String.eqb m n.
Proof.
  destruct o; unfold emitted, float_family; [|reflexivity].
  rewrite collect_single. simpl. now rewrite orb_false_r.
Qed.

Lemma emitted_single n m h kv v :
  emitted n [single m h kv v] = String.eqb m n.
Proof.
  unfold emitted. rewrite collect_single. simpl. now rewrite orb_false_r.
Qed.

Lemma emitted_counter_families n kv oc ou :
  emitted n (counter_families kv oc ou) =
  is_some oc && is_some ou
  && (String.eqb "modem_downstream_corrected" n
      || String.eqb "modem_downstream_uncorrectable" n).
Proof.
  destruct oc, ou; try reflexivity.
  unfold counter_families.
  change [?a; ?b] with ([a] ++ [b]).
  now rewrite emitted_app, !emitted_single.
Qed.

Ltac emitted_by_name H :=
  repeat rewrite emitted_app;
  rewrite unregistered_not_emitted by (apply H; name_in_list);
  repeat rewrite emitted_float_family;
  repeat rewrite emitted_counter_families;
  repeat rewrite emitted_single;
  simpl;
  repeat rewrite andb_false_r; repeat rewrite andb_true_r;
  repeat rewrite orb_false_r; simpl.

(** C2, as the code has it. For a channel record processed while none of
    the metric names of its direction is registered, and whose counters
    fit a float: processing the record does not raise; the power sample
    is present exactly when the power coerces and the SNR (upstream:
    frequency) sample exactly when that field coerces, each independently
    of every other field; the two counter samples are present together,
    exactly when both counters parse; the lock sample is present. *)
Theorem C2_field_samples_isolated :
  (forall ds st,
     unregistered downstream_names st -> counters_fit ds ->
     let reg := registry (snd (downstream_channel ds st)) in
     fst (downstream_channel ds st) = Ok tt /\
     emitted "modem_downstream_power_dbmv" reg
       = is_some (float_or_0 (ds_power ds)) /\
     emitted "modem_downstream_snr_db" reg
       = is_some (float_or_0 (ds_snr ds)) /\
     emitted "modem_downstream_corrected" reg
       = is_some (Py.int (ds_corrected ds))
         && is_some (Py.int (ds_uncorrectables ds)) /\
     emitted "modem_downstream_uncorrectable" reg
       = is_some (Py.int (ds_corrected ds))
         && is_some (Py.int (ds_uncorrectables ds)) /\
     emitted "modem_downstream_locked" reg = true) /\
  (forall us st,
     unregistered upstream_names st ->
     let reg := registry (snd (upstream_channel us st)) in
     fst (upstream_channel us st) = Ok tt /\
     emitted "modem_upstream_power_dbmv" reg
       = is_some (float_or_0 (us_power us)) /\
     emitted "modem_upstream_frequency_hz" reg
       = is_some (float_or_0 (us_frequency us)) /\
     emitted "modem_upstream_locked" reg = true).
Proof.
  split.
  - intros ds st H Hfit. cbv zeta.
    rewrite downstream_channel_fresh by assumption.
    unfold downstream_families. simpl.
    repeat split; emitted_by_name H; reflexivity.
  - intros us st H. cbv zeta.
    rewrite upstream_channel_fresh by assumption.
    unfold upstream_families. simpl.
    repeat split; emitted_by_name H; reflexivity.
Qed.

Lemma counters_fit_bad_uncorrectable :
  counters_fit (downstream_entry ds_bad_uncorrectable).
Proof.
  split; intros z Hz; vm_compute in Hz; inversion Hz; subst.
  vm_compute. reflexivity.
Defined.

Lemma C2_field_samples_isolated_witness :
  let ds := downstream_entry ds_bad_uncorrectable in
  let reg := registry (snd (downstream_channel ds fresh_state)) in
  unregistered downstream_names fresh_state /\
  counters_fit ds /\
  fst (downstream_channel ds fresh_state) = Ok tt /\
  emitted "modem_downstream_power_dbmv" reg
    = is_some (float_or_0 (ds_power ds)) /\
  emitted "modem_downstream_snr_db" reg
    = is_some (float_or_0 (ds_snr ds)) /\
  emitted "modem_downstream_corrected" reg
    = is_some (Py.int (ds_corrected ds))
      && is_some (Py.int (ds_uncorrectables ds)) /\
  emitted "modem_downstream_uncorrectable" reg
    = is_some (Py.int (ds_corrected ds))
      && is_some (Py.int (ds_uncorrectables ds)) /\
  emitted "modem_downstream_locked" reg = true.
Proof.
  split; [apply unregistered_fresh|].
  split; [apply counters_fit_bad_uncorrectable|].
  apply (proj1 C2_field_samples_isolated
           (downstream_entry ds_bad_uncorrectable) fresh_state
           (unregistered_fresh downstream_names)
           counters_fit_bad_uncorrectable).
Defined.

(** ** Omission and the zero default *)

(** A channel without any power field is exposed with a power of 0.0. *)
Lemma absent_power_exposed_as_zero :
  findtext ds_no_power "pow" = None /\
  findtext ds_no_power "PLCPower" = None /\
  In (sample_of "modem_downstream_power_dbmv" "Downstream Power"
        [("channel", "3"); ("modulation", "QAM256")] zero)
     (exposed (fst (metrics (modem_serving "123456 seconds" 10
                              (channels [ds_no_power]))))).
Proof.
  split; [reflexivity|]. split; [reflexivity|].
  vm_compute. right. right. left. reflexivity.
Qed.

Lemma in_collect_float_family n h kv o v :
  o = Some v -> In (sample_of n h kv v) (collect (float_family n h kv o)).
Proof.
  intros ->. unfold float_family. rewrite collect_single. now left.
Qed.

Lemma collect_counter_families kv c u :
  collect (counter_families kv (Some c) (Some u)) =
  [ sample_of "modem_downstream_corrected" "Corrected Codewords" kv
      (to_float c);
    sample_of "modem_downstream_uncorrectable" "Uncorrectable Codewords" kv
      (to_float u) ].
Proof.
  unfold counter_families.
  change [?a; ?b] with ([a] ++ [b]).
  now rewrite collect_app, !collect_single.
Qed.

Lemma or_str_falsy v d : truthy v = false -> or_str v d = d.
Proof. destruct v as [[|c s]|]; simpl; intros; try discriminate; reflexivity. Qed.

Lemma py_or_falsy a b : truthy a = false -> py_or a b = b.
Proof. unfold py_or. now intros ->. Qed.

Lemma py_or_truthy a b : truthy a = true -> py_or a b = a.
Proof. unfold py_or. now intros ->. Qed.

Lemma truthy_nonempty s : s <> "" -> truthy (Some s) = true.
Proof. destruct s; simpl; congruence. Qed.

(** C3, as the code has it. For a channel element processed while none of
    the metric names of its direction is registered (counters fitting a
    float): a numeric field whose resolved text is non-empty and cannot
    be coerced yields no sample of that metric, of value zero or any
    other; a power, SNR or frequency that is absent or empty under both
    of its names is replaced by 0 and exposed as 0.0; a counter that is
    absent or empty under both of its names is resolved to "0" and
    exposed as 0.0 when the other counter parses. *)
Theorem C3_unparsable_omitted_absent_zeroed :
  (forall e st,
     let ds := downstream_entry e in
     let reg := registry (snd (downstream_channel ds st)) in
     unregistered downstream_names st -> counters_fit ds ->
     (forall s, ds_power ds = Some s -> s <> "" -> Py.float s = None ->
        emitted "modem_downstream_power_dbmv" reg = false) /\
     (forall s, ds_snr ds = Some s -> s <> "" -> Py.float s = None ->
        emitted "modem_downstream_snr_db" reg = false) /\
     (Py.int (ds_corrected ds) = None ->
        emitted "modem_downstream_corrected" reg = false) /\
     (Py.int (ds_uncorrectables ds) = None ->
        emitted "modem_downstream_uncorrectable" reg = false) /\
     (truthy (findtext e "pow") = false ->
      truthy (findtext e "PLCPower") = false ->
        In (sample_of "modem_downstream_power_dbmv" "Downstream Power"
              (ds_labels ds) zero) (collect reg)) /\
     (truthy (findtext e "snr") = false ->
      truthy (findtext e "PlcScAvgMer") = false ->
        In (sample_of "modem_downstream_snr_db" "Downstream SNR"
              (ds_labels ds) zero) (collect reg)) /\
     (truthy (findtext e "correctable") = false ->
      truthy (findtext e "ofdmCorrected") = false ->
      Py.int (ds_uncorrectables ds) <> None ->
        In (sample_of "modem_downstream_corrected" "Corrected Codewords"
              (ds_labels ds) zero) (collect reg)) /\
     (truthy (findtext e "uncorrectable") = false ->
      truthy (findtext e "ofdmUncorrectable") = false ->
      Py.int (ds_corrected ds) <> None ->
        In (sample_of "modem_downstream_uncorrectable"
              "Uncorrectable Codewords" (ds_labels ds) zero)
           (collect reg))) /\
  (forall e st,
     let us := upstream_entry e in
     let reg := registry (snd (upstream_channel us st)) in
     unregistered upstream_names st ->
     (forall s, us_power us = Some s -> s <> "" -> Py.float s = None ->
        emitted "modem_upstream_power_dbmv" reg = false) /\
     (forall s, us_frequency us = Some s -> s <> "" -> Py.float s = None ->
        emitted "modem_upstream_frequency_hz" reg = false) /\
     (truthy (findtext e "power") = false ->
      truthy (findtext e "repPower1_6") = false ->
        In (sample_of "modem_upstream_power_dbmv" "Upstream Power"
              (us_labels us) zero) (collect reg)) /\
     (truthy (findtext e "freq") = false ->
      truthy (findtext e "centerFreq") = false ->
        In (sample_of "modem_upstream_frequency_hz" "Upstream Frequency"
              (us_labels us) zero) (collect reg))).
Proof.
  split.
  - intros e st. cbv zeta.
    remember (downstream_entry e) as ds eqn:Eds. intros H Hfit.
    rewrite downstream_channel_fresh by assumption.
    unfold downstream_families. simpl registry. simpl snd.
    repeat split.
    + intros s Hs Hne Hf. rewrite Hs, float_or_0_nonempty, Hf by assumption.
      emitted_by_name H. reflexivity.
    + intros s Hs Hne Hf. rewrite Hs, float_or_0_nonempty, Hf by assumption.
      emitted_by_name H. reflexivity.
    + intros ->. emitted_by_name H. reflexivity.
    + intros ->. emitted_by_name H. reflexivity.
    + intros Ha Hb. rewrite collect_app. apply in_or_app. right.
      rewrite collect_app. apply in_or_app. left.
      apply in_collect_float_family, float_or_0_falsy.
      subst ds. simpl. now rewrite py_or_falsy.
    + intros Ha Hb. do 2 (rewrite collect_app; apply in_or_app; right).
      rewrite collect_app. apply in_or_app. left.
      apply in_collect_float_family, float_or_0_falsy.
      subst ds. simpl. now rewrite py_or_falsy.
    + intros Ha Hb Hu.
      do 3 (rewrite collect_app; apply in_or_app; right).
      rewrite collect_app. apply in_or_app. left.
      assert (Hc : ds_corrected ds = "0").
      { subst ds. simpl. now rewrite py_or_falsy, or_str_falsy. }
      rewrite Hc. destruct (Py.int (ds_uncorrectables ds)); [|congruence].
      change (Py.int "0") with (Some 0).
      rewrite collect_counter_families. now left.
    + intros Ha Hb Hc.
      do 3 (rewrite collect_app; apply in_or_app; right).
      rewrite collect_app. apply in_or_app. left.
      assert (Hu : ds_uncorrectables ds = "0").
      { subst ds. simpl. now rewrite py_or_falsy, or_str_falsy. }
      rewrite Hu. destruct (Py.int (ds_corrected ds)); [|congruence].
      change (Py.int "0") with (Some 0).
      rewrite collect_counter_families. right. now left.
  - intros e st. cbv zeta.
    remember (upstream_entry e) as us eqn:Eus. intros H.
    rewrite upstream_channel_fresh by assumption.
    unfold upstream_families. simpl registry. simpl snd.
    repeat split.
    + intros s Hs Hne Hf. rewrite Hs, float_or_0_nonempty, Hf by assumption.
      emitted_by_name H. reflexivity.
    + intros s Hs Hne Hf. rewrite Hs, float_or_0_nonempty, Hf by assumption.
      emitted_by_name H. reflexivity.
    + intros Ha Hb. rewrite collect_app. apply in_or_app. right.
      rewrite collect_app. apply in_or_app. left.
      apply in_collect_float_family, float_or_0_falsy.
      subst us. simpl. now rewrite py_or_falsy.
    + intros Ha Hb. do 2 (rewrite collect_app; apply in_or_app; right).
      rewrite collect_app. apply in_or_app. left.
      apply in_collect_float_family, float_or_0_falsy.
      subst us. simpl. now rewrite py_or_falsy.
Qed.

Ltac concrete_counters_fit :=
  split; intros z Hz; vm_compute in Hz; inversion Hz; subst;
  vm_compute; reflexivity.

Lemma C3_unparsable_omitted_absent_zeroed_witness :
  emitted "modem_downstream_power_dbmv"
    (registry (snd (downstream_channel (downstream_entry ds_bad_power)
                      fresh_state))) = false /\
  In (sample_of "modem_downstream_power_dbmv" "Downstream Power"
        (ds_labels (downstream_entry ds_no_power)) zero)
     (collect (registry (snd (downstream_channel
                                (downstream_entry ds_no_power)
                                fresh_state)))).
Proof.
  split.
  - assert (Hfit : counters_fit (downstream_entry ds_bad_power))
      by concrete_counters_fit.
    destruct (proj1 C3_unparsable_omitted_absent_zeroed ds_bad_power
                fresh_state (unregistered_fresh downstream_names) Hfit)
      as (Hpow & _).
    apply (Hpow "n/a"); [reflexivity | discriminate | reflexivity].
  - assert (Hfit : counters_fit (downstream_entry ds_no_power))
      by concrete_counters_fit.
    destruct (proj1 C3_unparsable_omitted_absent_zeroed ds_no_power
                fresh_state (unregistered_fresh downstream_names) Hfit)
      as (_ & _ & _ & _ & Hzero & _).
    apply Hzero; reflexivity.
Defined.

(** ** The lock state *)

Lemma lock_value_cases s :
  (In (lower s) lock_vocabulary /\ lock_value s = one) \/
  (~ In (lower s) lock_vocabulary /\ lock_value s = zero).
Proof.
  unfold lock_value.
  destruct (existsb (String.eqb (lower s)) lock_vocabulary) eqn:E.
  - left. split; [|reflexivity].
    apply existsb_exists in E as (x & Hx & Heq).
    apply String.eqb_eq in Heq. now subst.
  - right. split; [|reflexivity]. intros Hin.
    assert (existsb (String.eqb (lower s)) lock_vocabulary = true).
    { apply existsb_exists. exists (lower s). split; auto.
      apply String.eqb_refl. }
    congruence.
Qed.

(** The lock sample of a record processed before the lock gauge of its
    direction exists: present, with the value of the vocabulary test. *)
Lemma lock_sample_of_first_record ds st :
  unregistered downstream_names st -> counters_fit ds ->
  In (sample_of "modem_downstream_locked" "Channel Locked (1 if locked)"
        (ds_labels ds) (lock_value (or_str (ds_locked ds) "")))
     (collect (registry (snd (downstream_channel ds st)))).
Proof.
  intros H Hfit. rewrite downstream_channel_fresh by assumption.
  unfold downstream_families. simpl.
  do 4 (rewrite collect_app; apply in_or_app; right).
  rewrite collect_single. now left.
Qed.

(** C6 at a payload of two locked channels: the second [Gauge] statement
    for the lock metric meets a registry that already holds the name, so
    the exposition carries the lock sample of the first channel only. *)
Theorem C6_lock_sample_of_second_channel_missing :
  lower (or_str (ds_locked (downstream_entry ds_second)) "") = "locked" /\
  filter (named "modem_downstream_locked")
    (exposed (fst (metrics (modem_serving "123456 seconds" 9
                             (channels [ds_first; ds_second])))))
  = [ sample_of "modem_downstream_locked" "Channel Locked (1 if locked)"
        [("channel", "1"); ("modulation", "QAM256")] one ].
Proof. split; vm_compute; reflexivity. Qed.

(** ** Precedence in the fallback chains *)

(** A legacy name that is present with no text does not win: the value
    under the modern name is what the record holds. *)
Lemma empty_legacy_value_passed_over :
  findtext ds_empty_chid (legacy_name DsChid) = Some "" /\
  findtext ds_empty_chid (modern_name DsChid) = Some "7" /\
  resolved DsChid ds_empty_chid = Some "7" /\
  resolved DsChid ds_empty_chid
    <> findtext ds_empty_chid (legacy_name DsChid).
Proof. repeat split; try reflexivity. vm_compute. discriminate. Qed.

Lemma or_str_nonempty s d : s <> "" -> or_str (Some s) d = s.
Proof. destruct s; simpl; congruence. Qed.

(** Every chained field is the [or] of its two names, the counters with
    the literal "0" behind them. *)
Lemma resolved_chain f e :
  resolved f e =
  match f with
  | DsCorrected | DsUncorrectables =>
      Some (or_str (py_or (findtext e (legacy_name f))
                          (findtext e (modern_name f))) "0")
  | _ => py_or (findtext e (legacy_name f)) (findtext e (modern_name f))
  end.
Proof. destruct f; reflexivity. Qed.

(** C1, as the code has it: in each chain the first name whose text is
    non-empty wins. A legacy value that is non-empty is returned whatever
    the modern name holds; a legacy name that is absent or empty is passed
    over for a non-empty modern value. *)
Theorem C1_first_nonempty_candidate_wins :
  forall (f : chained_field) (e : element),
    (forall v, findtext e (legacy_name f) = Some v -> v <> "" ->
       resolved f e = Some v) /\
    (forall v, truthy (findtext e (legacy_name f)) = false ->
       findtext e (modern_name f) = Some v -> v <> "" ->
       resolved f e = Some v).
Proof.
  intros f e. rewrite resolved_chain. split.
  - intros v Hv Hne. rewrite Hv, py_or_truthy by now apply truthy_nonempty.
    destruct f; try reflexivity; now rewrite or_str_nonempty.
  - intros v Hl Hm Hne. rewrite py_or_falsy, Hm by assumption.
    destruct f; try reflexivity; now rewrite or_str_nonempty.
Qed.

Lemma C1_first_nonempty_candidate_wins_witness :
  findtext ds_both_ids (legacy_name DsChid) = Some "1" /\
  findtext ds_both_ids (modern_name DsChid) = Some "7" /\
  resolved DsChid ds_both_ids = Some "1" /\
  resolved DsChid ds_empty_chid = Some "7".
Proof.
  split; [reflexivity|]. split; [reflexivity|]. split.
  - apply (proj1 (C1_first_nonempty_candidate_wins DsChid ds_both_ids) "1");
      [reflexivity | discriminate].
  - apply (proj2 (C1_first_nonempty_candidate_wins DsChid ds_empty_chid) "7");
      [reflexivity | reflexivity | discriminate].
Defined.

(** ** The derived upstream type *)

(** A [type] child of the element has no say in the type of the record. *)
Lemma type_child_is_ignored :
  findtext us_with_type_child "type" = Some "SC-QAM" /\
  us_type (upstream_entry us_with_type_child) = "OFDMA".
Proof. split; reflexivity. Qed.

Lemma find_some_iff (e : element) (t : string) :
  find e t <> None <->
  exists c, In c (children_of e) /\ tag_of c = t.
Proof.
  unfold find, has_tag. split.
  - destruct (List.find _ _) as [c|] eqn:E; [|congruence].
    intros _. apply find_some in E as [Hin Heq].
    exists c. split; auto. now apply String.eqb_eq.
  - intros (c & Hin & Heq) Hnone.
    apply (find_none _ _ Hnone) in Hin.
    rewrite Heq, String.eqb_refl in Hin. discriminate.
Qed.

(** C8. The type of an upstream record is "OFDMA" exactly when the
    element has an [ofdmaLocked] child and "SC-QAM" exactly when it has
    none; no other child, not even one named [type], is consulted. *)
Theorem C8_upstream_type_derived_from_lock_field :
  forall us : element,
    (us_type (upstream_entry us) = "OFDMA" <->
     exists c, In c (children_of us) /\ tag_of c = "ofdmaLocked") /\
    (us_type (upstream_entry us) = "SC-QAM" <->
     ~ exists c, In c (children_of us) /\ tag_of c = "ofdmaLocked").
Proof.
  intros us. rewrite <- find_some_iff. simpl.
  destruct (find us "ofdmaLocked"); split; split;
    try congruence; try discriminate; intros H; try reflexivity.
  - exfalso. apply H. discriminate.
Qed.

(** ** The log of requests only grows *)

Create HintDb log_db.

Lemma extends_ret {A} (a : A) : extends_log (ret a).
Proof. intros st. exists []. simpl. now rewrite app_nil_r. Qed.

Lemma extends_raise {A} e : extends_log (@raise A e).
Proof. intros st. exists []. simpl. now rewrite app_nil_r. Qed.

Lemma extends_bind {A B} (m : M A) (k : A -> M B) :
  extends_log m -> (forall a, extends_log (k a)) -> extends_log (bind m k).
Proof.
  intros Hm Hk st. unfold bind. destruct (Hm st) as [l1 H1].
  destruct (m st) as [[a|e] st1]; simpl in *.
  - destruct (Hk a st1) as [l2 H2]. exists (l1 ++ l2).
    now rewrite H2, H1, app_assoc.
  - now exists l1.
Qed.

Lemma extends_try_ValueError m :
  extends_log m -> extends_log (try_ValueError m).
Proof.
  intros Hm st. unfold try_ValueError. destruct (Hm st) as [l H].
  destruct (m st) as [[a|e] st1]; simpl in *; [now exists l|].
  destruct (is_ValueError e); now exists l.
Qed.

Lemma extends_try_Exception m :
  extends_log m -> extends_log (try_Exception m).
Proof.
  intros Hm st. unfold try_Exception. destruct (Hm st) as [l H].
  destruct (m st) as [[a|e] st1]; simpl in *; now exists l.
Qed.

Lemma extends_for_each {A} (l : list A) body :
  (forall a, extends_log (body a)) -> extends_log (for_each l body).
Proof.
  intros Hb. induction l as [|x l IH]; simpl.
  - apply extends_ret.
  - apply extends_bind; auto.
Qed.

Lemma extends_or_raise {A} e (o : option A) : extends_log (or_raise e o).
Proof. destruct o; [apply extends_ret | apply extends_raise]. Qed.

Lemma extends_lift {A} (r : result A) : extends_log (lift r).
Proof. destruct r; [apply extends_ret | apply extends_raise]. Qed.

Lemma extends_modify_registry g : extends_log (modify_registry g).
Proof. intros st. exists []. simpl. now rewrite app_nil_r. Qed.

Lemma extends_log_request r : extends_log (log_request r).
Proof. intros st. now exists [r]. Qed.

Lemma extends_Gauge n h ks : extends_log (Gauge n h ks).
Proof.
  intros st. exists []. unfold Gauge.
  destruct (registered n (registry st)); simpl; now rewrite app_nil_r.
Qed.

#[local] Hint Resolve extends_ret extends_raise extends_bind
  extends_try_ValueError extends_try_Exception extends_for_each
  extends_or_raise extends_lift extends_modify_registry
  extends_log_request extends_Gauge : log_db.

Ltac extends_step :=
  first [ apply extends_bind | apply extends_try_ValueError
        | apply extends_try_Exception | apply extends_for_each
        | apply extends_or_raise | apply extends_lift
        | apply extends_modify_registry | apply extends_log_request
        | apply extends_Gauge | apply extends_ret | apply extends_raise
        | intro ].

Lemma extends_gauge_set n h kv v : extends_log (gauge_set n h kv v).
Proof. unfold gauge_set, labels, set. repeat extends_step. Qed.

Lemma extends_gauge_set_int n h kv z : extends_log (gauge_set_int n h kv z).
Proof. unfold gauge_set_int, labels, set_int, set. repeat extends_step. Qed.

Lemma extends_downstream_channel ds : extends_log (downstream_channel ds).
Proof.
  unfold downstream_channel.
  repeat first [ apply extends_gauge_set | apply extends_gauge_set_int
               | extends_step ].
Qed.

Lemma extends_upstream_channel us : extends_log (upstream_channel us).
Proof.
  unfold upstream_channel.
  repeat first [ apply extends_gauge_set | extends_step ].
Qed.

Lemma extends_raise_for_status s : extends_log (raise_for_status s).
Proof.
  unfold raise_for_status.
  destruct ((400 <=? s) && (s <? 600)); repeat extends_step.
Qed.

Lemma extends_fetch_xml dev f : extends_log (fetch_xml dev f).
Proof.
  unfold fetch_xml. apply extends_bind; [apply extends_log_request|].
  intros _. destruct (getter_xml dev f); [apply extends_raise|].
  apply extends_bind; [apply extends_raise_for_status|].
  intros _. apply extends_ret.
Qed.

Lemma extends_channel_groups dfs ufs dev :
  extends_log (channel_groups dfs ufs dev).
Proof.
  unfold channel_groups, downstream_group, upstream_group,
    for_downstream, for_upstream.
  repeat first [ apply extends_fetch_xml | apply extends_downstream_channel
               | apply extends_upstream_channel | extends_step ].
Qed.

Lemma extends_uptime_metric u : extends_log (uptime_metric u).
Proof. unfold uptime_metric, set. repeat extends_step. Qed.

(** The status block starts with the POST for function number 1. *)
Lemma status_metrics_first_request dev st :
  exists more,
    requests (snd (status_metrics dev st))
    = requests st ++ PostGetter 1 :: more.
Proof.
  unfold status_metrics, fetch_xml.
  match goal with
  | |- context [bind (bind (log_request ?r) ?k1) ?k2] =>
      assert (Hk : extends_log (bind (k1 tt) k2))
  end.
  { apply extends_bind.
    - destruct (getter_xml dev 1); auto with log_db.
      apply extends_bind; [apply extends_raise_for_status|].
      auto with log_db.
    - intros xml. apply extends_bind; [apply extends_lift|].
      intros status. apply extends_bind.
      + destruct (dict_get status "cm_system_uptime") as [[|c s]|];
          auto using extends_uptime_metric with log_db.
      + intros _. destruct (dict_get status "cm_docsis_mode");
          auto with log_db.
        unfold set. repeat extends_step. }
  destruct (Hk (snd (log_request (PostGetter 1) st))) as [more Hmore].
  exists more. unfold bind at 1 2. simpl.
  unfold bind at 1 in Hmore. simpl in Hmore.
  rewrite <- app_assoc in Hmore. exact Hmore.
Qed.

Lemma has_token_iff cs :
  existsb (String.eqb "sessionToken") cs = true <-> In "sessionToken" cs.
Proof.
  rewrite existsb_exists. split.
  - intros (x & Hin & Heq). apply String.eqb_eq in Heq. now subst.
  - intros Hin. exists "sessionToken".
    split; [assumption | apply String.eqb_refl].
Qed.

Lemma login_run dev status cs :
  login_xml dev = Reply status cs ->
  login dev fresh_state =
  (if existsb (String.eqb "sessionToken") cs then Ok true
   else Raise LoginError,
   {| cookies := cs; registry := []; requests := [PostLogin] |}).
Proof.
  intros H.
  unfold login, bind, log_request, fresh_state. rewrite H.
  unfold add_cookies, has_cookie, ret, raise.
  cbn [cookies registry requests app].
  now destruct (existsb (String.eqb "sessionToken") cs).
Qed.

(** ** Authentication *)

(** C4. When the login response sets no session token, whatever its
    status code, the handler answers with the login failure and the only
    request of the pass is the login POST. *)
Theorem C4_no_token_fails_the_pass_without_fetch :
  forall (dev : modem) (status : Z) (cs : list string),
    login_xml dev = Reply status cs ->
    ~ In "sessionToken" cs ->
    fst (metrics dev) = Response 500 (LoginFailed LoginError) /\
    requests (snd (metrics dev)) = [PostLogin].
Proof.
  intros dev status cs Hlogin Hno.
  unfold metrics, metrics_over. rewrite (login_run dev Hlogin).
  destruct (existsb (String.eqb "sessionToken") cs) eqn:E.
  - apply has_token_iff in E. contradiction.
  - split; reflexivity.
Qed.

Lemma C4_no_token_fails_the_pass_without_fetch_witness :
  login_xml modem_without_token = Reply 200 ["lang"] /\
  ~ In "sessionToken" ["lang"] /\
  fst (metrics modem_without_token)
    = Response 500 (LoginFailed LoginError) /\
  requests (snd (metrics modem_without_token)) = [PostLogin].
Proof.
  assert (Hno : ~ In "sessionToken" ["lang"]).
  { simpl. intros [H | []]. discriminate H. }
  split; [reflexivity|]. split; [exact Hno|].
  apply (@C4_no_token_fails_the_pass_without_fetch
           modem_without_token 200 ["lang"] eq_refl Hno).
Defined.

(** C10. When the login response sets the session token, whatever its
    status code, [login] returns [True], the handler does not answer with
    a login failure, and the pass goes on to POST the getter for function
    number 1. *)
Theorem C10_token_suffices_whatever_the_status :
  forall (dev : modem) (status : Z) (cs : list string),
    login_xml dev = Reply status cs ->
    In "sessionToken" cs ->
    fst (login dev fresh_state) = Ok true /\
    (forall e, content (fst (metrics dev)) <> LoginFailed e) /\
    exists more,
      requests (snd (metrics dev)) = PostLogin :: PostGetter 1 :: more.
Proof.
  intros dev status cs Hlogin Hin.
  apply has_token_iff in Hin.
  unfold metrics, metrics_over. rewrite (login_run dev Hlogin), Hin.
  split; [reflexivity|].
  set (st1 := {| cookies := cs; registry := []; requests := [PostLogin] |}).
  destruct (status_metrics_first_request dev st1) as [more Hmore].
  destruct (status_metrics dev st1) as [[[]|e] st2]; simpl in Hmore.
  - destruct (extends_channel_groups downstream_funs upstream_funs dev st2)
      as [more' Hmore'].
    destruct (channel_groups downstream_funs upstream_funs dev st2)
      as [[[]|e] st3]; simpl in *;
      (split; [intros e'; discriminate|]);
      exists (more ++ more'); rewrite Hmore', Hmore; reflexivity.
  - simpl. split; [intros e'; discriminate|]. now exists more.
Qed.

Lemma C10_token_suffices_whatever_the_status_witness :
  login_xml modem_forbidden_with_token = Reply 403 ["sessionToken"] /\
  In "sessionToken" ["sessionToken"] /\
  fst (login modem_forbidden_with_token fresh_state) = Ok true /\
  (forall e,
     content (fst (metrics modem_forbidden_with_token)) <> LoginFailed e) /\
  exists more,
    requests (snd (metrics modem_forbidden_with_token))
    = PostLogin :: PostGetter 1 :: more.
Proof.
  assert (Hin : In "sessionToken" ["sessionToken"]) by (simpl; auto).
  split; [reflexivity|]. split; [exact Hin|].
  apply (@C10_token_suffices_whatever_the_status
           modem_forbidden_with_token 403 ["sessionToken"] eq_refl Hin).
Defined.

(** ** Uptime *)

(** For an uptime with a first token and a registry without the uptime
    gauge: the token alone is coerced; the sample is set when the
    coercion succeeds and left out when it fails, and nothing is raised
    either way. *)
Lemma uptime_metric_token u tok st :
  split_first u = Some tok ->
  registered "modem_system_uptime_seconds" (registry st) = false ->
  uptime_metric u st =
  (Ok tt,
   match Py.float tok with
   | Some v =>
       push st (single "modem_system_uptime_seconds" "System Uptime" [] v)
   | None => st
   end).
Proof.
  intros Htok Hreg. unfold uptime_metric, bind at 1. rewrite Htok. simpl.
  unfold try_ValueError, bind, Gauge, set, modify_registry.
  destruct (Py.float tok) as [v|]; simpl; [|reflexivity].
  rewrite Hreg. simpl.
  rewrite on_family_last by (auto; reflexivity).
  reflexivity.
Qed.

(** An uptime made of whitespace only has no first token. *)
Lemma uptime_metric_blank u st :
  split_first u = None -> uptime_metric u st = (Raise IndexError, st).
Proof. intros H. unfold uptime_metric, bind. now rewrite H. Qed.

Lemma uptime_examples :
  exposed (fst (metrics (modem_serving "123456 seconds" 9 empty_doc)))
  = [ sample_of "modem_system_uptime_seconds" "System Uptime" []
        (to_float 123456);
      sample_of "modem_docsis_mode" "DOCSIS mode (1 for 3.1, 0 otherwise)"
        [] one ] /\
  fst (metrics (modem_serving "garbage" 9 empty_doc))
  = Response 200
      (Exposition
         [ sample_of "modem_docsis_mode"
             "DOCSIS mode (1 for 3.1, 0 otherwise)" [] one ]).
Proof. split; vm_compute; reflexivity. Qed.

(** C7 at an uptime of whitespace only: [split()] yields no token, the
    [IndexError] of [split()[0]] is raised outside the inner [try] and the
    handler answers with the status failure instead of dropping the
    uptime sample. *)
Theorem C7_blank_uptime_fails_the_pass :
  split_first "  " = None /\
  fst (metrics (modem_serving "  " 9 empty_doc))
  = Response 500 (StatusFailed IndexError).
Proof. split; vm_compute; reflexivity. Qed.

(** ** Simulation between two runs *)

Section Simulation.

Variable R : pass_state -> pass_state -> Prop.
Variable kv_rel : list (string * string) -> list (string * string) -> Prop.

Hypothesis R_registered :
  forall st st' n,
    R st st' -> registered n (registry st) = registered n (registry st').
Hypothesis R_push :
  forall st st' n h kv kv' v,
    R st st' -> kv_rel kv kv' ->
    R (push st (single n h kv v)) (push st' (single n h kv' v)).
Hypothesis R_log :
  forall st st' r,
    R st st' -> R (snd (log_request r st)) (snd (log_request r st')).
Hypothesis kv_rel_refl : forall kv, kv_rel kv kv.

Lemma sim_ret {A} (a : A) : sim R (ret a) (ret a).
Proof. intros st st' H. now split. Qed.

Lemma sim_raise {A} e : sim R (@raise A e) (raise e).
Proof. intros st st' H. now split. Qed.

Lemma sim_bind {A B} (m m' : M A) (k k' : A -> M B) :
  sim R m m' -> (forall a, sim R (k a) (k' a)) ->
  sim R (bind m k) (bind m' k').
Proof.
  intros Hm Hk st st' H. unfold bind.
  destruct (Hm st st' H) as [Hres Hst].
  destruct (m st) as [[a|e] s1], (m' st') as [[a'|e'] s1'];
    simpl in *; try discriminate.
  - inversion Hres; subst. now apply Hk.
  - inversion Hres; subst. now split.
Qed.

Lemma sim_try_ValueError m m' :
  sim R m m' -> sim R (try_ValueError m) (try_ValueError m').
Proof.
  intros Hm st st' H. unfold try_ValueError.
  destruct (Hm st st' H) as [Hres Hst].
  destruct (m st) as [[a|e] s1], (m' st') as [[a'|e'] s1'];
    simpl in *; try discriminate; inversion Hres; subst.
  - now split.
  - destruct (is_ValueError e'); now split.
Qed.

Lemma sim_try_Exception m m' :
  sim R m m' -> sim R (try_Exception m) (try_Exception m').
Proof.
  intros Hm st st' H. unfold try_Exception.
  destruct (Hm st st' H) as [Hres Hst].
  destruct (m st) as [[a|e] s1], (m' st') as [[a'|e'] s1'];
    simpl in *; try discriminate; inversion Hres; subst; now split.
Qed.

Lemma sim_for_each {A} (l l' : list A) body body' :
  Forall2 (fun a a' => sim R (body a) (body' a')) l l' ->
  sim R (for_each l body) (for_each l' body').
Proof.
  induction 1 as [|a a' l l' Ha Hl IH]; simpl.
  - apply sim_ret.
  - apply sim_bind; auto.
Qed.

Lemma sim_or_raise {A} e (o : option A) :
  sim R (or_raise e o) (or_raise e o).
Proof. destruct o; [apply sim_ret | apply sim_raise]. Qed.

Lemma sim_lift {A} (r : result A) : sim R (lift r) (lift r).
Proof. destruct r; [apply sim_ret | apply sim_raise]. Qed.

Lemma sim_gauge_set n h kv kv' v :
  kv_rel kv kv' -> sim R (gauge_set n h kv v) (gauge_set n h kv' v).
Proof.
  intros Hkv st st' H. rewrite !gauge_set_run.
  rewrite (R_registered n H).
  destruct (registered n (registry st')); simpl; split; auto.
Qed.

Lemma sim_gauge_set_int n h kv kv' z :
  kv_rel kv kv' ->
  sim R (gauge_set_int n h kv z) (gauge_set_int n h kv' z).
Proof.
  intros Hkv st st' H. rewrite !gauge_set_int_run.
  rewrite (R_registered n H).
  destruct (registered n (registry st')); simpl; [split; auto|].
  destruct (float_of_int z); simpl; split; auto.
Qed.

Lemma sim_log_request r : sim R (log_request r) (log_request r).
Proof. intros st st' H. split; [reflexivity | now apply R_log]. Qed.

Lemma sim_fetch_xml dev f : sim R (fetch_xml dev f) (fetch_xml dev f).
Proof.
  unfold fetch_xml. apply sim_bind; [apply sim_log_request|].
  intros _. destruct (getter_xml dev f) as [|s c]; [apply sim_raise|].
  unfold raise_for_status.
  destruct ((400 <=? s) && (s <? 600)); apply sim_bind;
    auto using sim_raise, sim_ret.
Qed.

Lemma sim_downstream_channel ds :
  sim R (downstream_channel ds) (downstream_channel ds).
Proof.
  unfold downstream_channel. cbv zeta.
  repeat first [ apply sim_gauge_set | apply sim_gauge_set_int
               | apply sim_try_ValueError | apply sim_or_raise
               | apply sim_bind | apply kv_rel_refl | intro ].
Qed.

Lemma sim_upstream_channel us us' :
  kv_rel (us_labels us) (us_labels us') ->
  float_or_0 (us_power us) = float_or_0 (us_power us') ->
  float_or_0 (us_frequency us) = float_or_0 (us_frequency us') ->
  or_str (us_locked us) "" = or_str (us_locked us') "" ->
  sim R (upstream_channel us) (upstream_channel us').
Proof.
  intros Hkv Hp Hf Hl. unfold upstream_channel. cbv zeta. rewrite Hp, Hf, Hl.
  repeat first [ apply sim_gauge_set | apply sim_try_ValueError
               | apply sim_or_raise | apply sim_bind
               | assumption | intro ].
Qed.

Lemma Forall2_same {A} (P : A -> A -> Prop) (l : list A) :
  (forall a, P a a) -> Forall2 P l l.
Proof. intros H. induction l; constructor; auto. Qed.

Lemma sim_downstream_group dev f :
  sim R (downstream_group dev f) (downstream_group dev f).
Proof.
  unfold downstream_group, for_downstream.
  apply sim_try_Exception, sim_bind; [apply sim_fetch_xml|].
  intros xml. apply sim_bind; [apply sim_lift|].
  intros records. apply sim_for_each, Forall2_same.
  apply sim_downstream_channel.
Qed.

Lemma sim_upstream_group dev f :
  sim R (upstream_group dev f) (upstream_group dev f).
Proof.
  unfold upstream_group, for_upstream.
  apply sim_try_Exception, sim_bind; [apply sim_fetch_xml|].
  intros xml. apply sim_bind; [apply sim_lift|].
  intros records. apply sim_for_each, Forall2_same.
  intros us. now apply sim_upstream_channel.
Qed.

End Simulation.

(** ** Isolation of a failed fetch *)

Lemma failed_fetch dev f st :
  fetch_fails dev f ->
  (exists e,
     fetch_xml dev f st = (Raise e, snd (log_request (PostGetter f) st)))
  \/ fetch_xml dev f st = (Ok NotXML, snd (log_request (PostGetter f) st)).
Proof.
  unfold fetch_fails, fetch_xml, bind, raise_for_status. simpl.
  destruct (getter_xml dev f) as [|s c].
  - intros _. left. now exists ConnectionError.
  - intros H. destruct ((400 <=? s) && (s <? 600)) eqn:E.
    + left. now exists (HTTPError s).
    + right. destruct H as [H | ->]; [|reflexivity].
      apply andb_false_iff in E as [E | E]; lia.
Qed.

(** A group whose fetch fails logs its request, leaves the registry as
    it was and lets the loop go on. *)
Lemma failed_downstream_group dev f st :
  fetch_fails dev f ->
  downstream_group dev f st = (Ok tt, snd (log_request (PostGetter f) st)).
Proof.
  intros H. unfold downstream_group, try_Exception, bind at 1.
  destruct (failed_fetch dev f st H) as [[e ->] | ->]; reflexivity.
Qed.

Lemma failed_upstream_group dev f st :
  fetch_fails dev f ->
  upstream_group dev f st = (Ok tt, snd (log_request (PostGetter f) st)).
Proof.
  intros H. unfold upstream_group, try_Exception, bind at 1.
  destruct (failed_fetch dev f st H) as [[e ->] | ->]; reflexivity.
Qed.

Lemma same_metrics_registered st st' n :
  same_metrics st st' ->
  registered n (registry st) = registered n (registry st').
Proof. now intros [_ ->]. Qed.

Lemma same_metrics_push st st' n h kv kv' v :
  same_metrics st st' -> kv = kv' ->
  same_metrics (push st (single n h kv v)) (push st' (single n h kv' v)).
Proof. intros [Hc Hr] ->. unfold same_metrics, push. simpl. now rewrite Hc, Hr. Qed.

Lemma same_metrics_log st st' r :
  same_metrics st st' ->
  same_metrics (snd (log_request r st)) (snd (log_request r st')).
Proof. intros [Hc Hr]. now split. Qed.

Lemma same_metrics_logged st st' r :
  same_metrics st st' -> same_metrics (snd (log_request r st)) st'.
Proof. intros [Hc Hr]. now split. Qed.

(** Dropping a function number whose fetch fails from a loop changes
    neither the result of the loop nor the registry it leaves. *)
Lemma for_each_group_skip (group : modem -> Z -> M unit) dev f l :
  (forall g, sim same_metrics (group dev g) (group dev g)) ->
  (forall st,
     group dev f st = (Ok tt, snd (log_request (PostGetter f) st))) ->
  sim same_metrics (for_each l (group dev))
    (for_each (remove Z.eq_dec f l) (group dev)).
Proof.
  intros Hsim Hfail. induction l as [|g l IH]; simpl.
  - intros st st' H. now split.
  - destruct (Z.eq_dec f g) as [<- | Hne].
    + intros st st' H. unfold bind. rewrite Hfail. cbv beta iota.
      apply IH. now apply same_metrics_logged.
    + simpl. apply sim_bind; [apply Hsim | intros _; exact IH].
Qed.

Lemma sim_groups_same_metrics dev :
  (forall g, sim same_metrics (downstream_group dev g)
               (downstream_group dev g)) /\
  (forall g, sim same_metrics (upstream_group dev g)
               (upstream_group dev g)).
Proof.
  split; intros g;
    [ apply sim_downstream_group with (kv_rel := eq)
    | apply sim_upstream_group with (kv_rel := eq) ];
    auto using same_metrics_registered, same_metrics_push,
      same_metrics_log.
Qed.

Lemma for_each_ok {A} (l : list A) (body : A -> M unit) st :
  (forall a s, fst (body a s) = Ok tt) -> fst (for_each l body st) = Ok tt.
Proof.
  intros Hb. revert st. induction l as [|a l IH]; intros st; simpl; auto.
  unfold bind. specialize (Hb a st).
  destruct (body a st) as [[[]|e] s]; simpl in Hb; [apply IH | discriminate].
Qed.

Lemma try_Exception_ok m st : fst (try_Exception m st) = Ok tt.
Proof.
  unfold try_Exception. now destruct (m st) as [[[]|e] s].
Qed.

(** The two channel loops never raise. *)
Lemma channel_groups_ok dfs ufs dev st :
  fst (channel_groups dfs ufs dev st) = Ok tt.
Proof.
  unfold channel_groups, bind.
  pose proof (for_each_ok dfs (downstream_group dev) st
                (fun a s => try_Exception_ok _ s)) as H.
  destruct (for_each dfs (downstream_group dev) st) as [[[]|e] s];
    simpl in H; [|discriminate].
  apply for_each_ok. intros a s'. apply try_Exception_ok.
Qed.

(** Isolation of a failed fetch. When the fetch for a function number
    fails (no response, an error status or a body that is not XML): its
    group raises nothing and leaves the registry untouched, in the
    downstream and in the upstream loop; the response of the pass is the
    response of the pass that never polls that function number; and a
    pass whose login and status block succeed answers 200 with an
    exposition. *)
Lemma failed_fetch_skips_only_its_group :
  forall (dev : modem) (f : Z),
    fetch_fails dev f ->
    (forall st,
       fst (downstream_group dev f st) = Ok tt /\
       registry (snd (downstream_group dev f st)) = registry st /\
       fst (upstream_group dev f st) = Ok tt /\
       registry (snd (upstream_group dev f st)) = registry st) /\
    fst (metrics dev)
      = fst (metrics_over (remove Z.eq_dec f downstream_funs)
               (remove Z.eq_dec f upstream_funs) dev) /\
    (forall st1 st2,
       login dev fresh_state = (Ok true, st1) ->
       status_metrics dev st1 = (Ok tt, st2) ->
       exists samples,
         fst (metrics dev) = Response 200 (Exposition samples)).
Proof.
  intros dev f Hfail. split; [|split].
  - intros st.
    rewrite failed_downstream_group, failed_upstream_group by assumption.
    repeat split.
  - unfold metrics, metrics_over.
    destruct (login dev fresh_state) as [[b|e] st1]; [|reflexivity].
    destruct (status_metrics dev st1) as [[[]|e] st2]; [|reflexivity].
    destruct (sim_groups_same_metrics dev) as [Hd Hu].
    assert (Hsim : sim same_metrics
              (channel_groups downstream_funs upstream_funs dev)
              (channel_groups (remove Z.eq_dec f downstream_funs)
                 (remove Z.eq_dec f upstream_funs) dev)).
    { unfold channel_groups. apply sim_bind.
      - apply for_each_group_skip; auto.
        intros st. now apply failed_downstream_group.
      - intros _. apply for_each_group_skip; auto.
        intros st. now apply failed_upstream_group. }
    destruct (Hsim st2 st2) as [Hres [_ Hreg]]; [now split|].
    destruct (channel_groups downstream_funs upstream_funs dev st2)
      as [r st3].
    destruct (channel_groups (remove Z.eq_dec f downstream_funs)
                (remove Z.eq_dec f upstream_funs) dev st2) as [r' st3'].
    simpl in *. subst r'. rewrite Hreg. now destruct r as [[]|e].
  - intros st1 st2 Hlogin Hstatus. unfold metrics, metrics_over.
    rewrite Hlogin, Hstatus.
    pose proof (channel_groups_ok downstream_funs upstream_funs dev st2)
      as Hok.
    destruct (channel_groups downstream_funs upstream_funs dev st2)
      as [[[]|e] st3]; simpl in Hok; [|discriminate].
    eexists. reflexivity.
Qed.

(** Both downstream fetches fail and one upstream fetch succeeds: the
    pass answers 200 and exposes the upstream samples next to the status
    ones, and no downstream sample. *)
Lemma downstream_down_upstream_up :
  status_code (fst (metrics modem_downstream_down)) = 200 /\
  names_exposed (fst (metrics modem_downstream_down))
  = [ "modem_system_uptime_seconds"; "modem_docsis_mode";
      "modem_upstream_power_dbmv"; "modem_upstream_frequency_hz";
      "modem_upstream_locked" ].
Proof. split; vm_compute; reflexivity. Qed.

Lemma failed_fetch_skips_only_its_group_at_9 :
  fetch_fails modem_downstream_down 9 /\
  fst (metrics modem_downstream_down)
    = fst (metrics_over (remove Z.eq_dec 9 downstream_funs)
             (remove Z.eq_dec 9 upstream_funs) modem_downstream_down).
Proof.
  assert (H : fetch_fails modem_downstream_down 9).
  { unfold fetch_fails. simpl. left. lia. }
  split; [exact H|].
  exact (proj1 (proj2 (failed_fetch_skips_only_its_group
                         modem_downstream_down 9 H))).
Defined.

(** C5 at a modem whose downstream fetches fail and whose upstream
    fetch for function number 11 succeeds with two channels, each with
    every field in order: the pass answers 200 and exposes no downstream
    sample, but of the upstream payload it exposes the samples of the
    first channel only. The gauges of the second record meet a registry
    that already holds their names, and its lock statement ends the
    loop. *)
Theorem C5_successful_fetch_loses_its_second_record :
  fetch_fails modem_two_upstream 9 /\
  fetch_fails modem_two_upstream 10 /\
  parse_upstream (channels [us_legacy_channel; us_legacy_second])
    = Ok [upstream_entry us_legacy_channel;
          upstream_entry us_legacy_second] /\
  map f_name (upstream_families (upstream_entry us_legacy_second))
    = upstream_names /\
  status_code (fst (metrics modem_two_upstream)) = 200 /\
  map name_and_labels (exposed (fst (metrics modem_two_upstream)))
  = [ ("modem_system_uptime_seconds", []);
      ("modem_docsis_mode", []);
      ("modem_upstream_power_dbmv", [("channel", "1"); ("type", "SC-QAM")]);
      ("modem_upstream_frequency_hz",
       [("channel", "1"); ("type", "SC-QAM")]);
      ("modem_upstream_locked", [("channel", "1"); ("type", "SC-QAM")]) ].
Proof.
  split; [unfold fetch_fails; simpl; left; lia|].
  split; [unfold fetch_fails; simpl; now right|].
  repeat split; vm_compute; reflexivity.
Qed.

(** ** The two schemas *)

(** The same upstream channel, served in the legacy schema by function
    number 11 and in the modern schema by function number 6, is exposed
    under two different label sets. *)
Lemma upstream_type_label_differs :
  map s_labels
    (exposed (fst (metrics (modem_serving "" 11
                             (channels [us_legacy us_sample_values])))))
  = [ []; [("channel", "1"); ("type", "SC-QAM")];
      [("channel", "1"); ("type", "SC-QAM")];
      [("channel", "1"); ("type", "SC-QAM")] ] /\
  map s_labels
    (exposed (fst (metrics (modem_serving "" 6
                             (channels [us_modern us_sample_values])))))
  = [ []; [("channel", "1"); ("type", "OFDMA")];
      [("channel", "1"); ("type", "OFDMA")];
      [("channel", "1"); ("type", "OFDMA")] ] /\
  exposed (fst (metrics (modem_serving "" 11
                           (channels [us_legacy us_sample_values]))))
  <> exposed (fst (metrics (modem_serving "" 6
                              (channels [us_modern us_sample_values])))).
Proof.
  split; [vm_compute; reflexivity|].
  split; [vm_compute; reflexivity|].
  vm_compute. discriminate.
Qed.

(** The same downstream channel, served in the legacy schema by function
    number 10 and in the modern schema by function number 9, is exposed
    as the same samples. *)
Lemma downstream_schemas_agree :
  exposed (fst (metrics (modem_serving "" 10
                           (channels [ds_legacy ds_sample_values]))))
  = exposed (fst (metrics (modem_serving "" 9
                             (channels [ds_modern ds_sample_values])))).
Proof. vm_compute. reflexivity. Qed.

Lemma or_str_py_or_sides a d :
  or_str (py_or a None) d = or_str (py_or None a) d.
Proof. destruct a as [[|c s]|]; reflexivity. Qed.

Lemma float_or_0_py_or_sides a :
  float_or_0 (py_or a None) = float_or_0 (py_or None a).
Proof. destruct a as [[|c s]|]; reflexivity. Qed.

Lemma ds_legacy_entry v :
  downstream_entry (ds_legacy v) =
  {| ds_chid := py_or (v_chid v) None;
     ds_locked := py_or (v_locked v) None;
     ds_modulation := py_or (v_modulation v) None;
     ds_frequency := py_or (v_frequency v) None;
     ds_power := py_or (v_power v) None;
     ds_snr := py_or (v_snr v) None;
     ds_corrected := or_str (py_or (v_corrected v) None) "0";
     ds_uncorrectables := or_str (py_or (v_uncorrectables v) None) "0" |}.
Proof. destruct v as [[a|] [b|] [c|] [d|] [e|] [f|] [g|] [h|]]; reflexivity. Qed.

Lemma ds_modern_entry v :
  downstream_entry (ds_modern v) =
  {| ds_chid := py_or None (v_chid v);
     ds_locked := py_or None (v_locked v);
     ds_modulation := py_or None (v_modulation v);
     ds_frequency := py_or None (v_frequency v);
     ds_power := py_or None (v_power v);
     ds_snr := py_or None (v_snr v);
     ds_corrected := or_str (py_or None (v_corrected v)) "0";
     ds_uncorrectables := or_str (py_or None (v_uncorrectables v)) "0" |}.
Proof. destruct v as [[a|] [b|] [c|] [d|] [e|] [f|] [g|] [h|]]; reflexivity. Qed.

Lemma downstream_channel_view ds ds' :
  ds_labels ds = ds_labels ds' ->
  float_or_0 (ds_power ds) = float_or_0 (ds_power ds') ->
  float_or_0 (ds_snr ds) = float_or_0 (ds_snr ds') ->
  ds_corrected ds = ds_corrected ds' ->
  ds_uncorrectables ds = ds_uncorrectables ds' ->
  or_str (ds_locked ds) "" = or_str (ds_locked ds') "" ->
  downstream_channel ds = downstream_channel ds'.
Proof.
  intros H1 H2 H3 H4 H5 H6. unfold downstream_channel. cbv zeta.
  now rewrite H1, H2, H3, H4, H5, H6.
Qed.

Lemma downstream_channel_schema v :
  downstream_channel (downstream_entry (ds_legacy v))
  = downstream_channel (downstream_entry (ds_modern v)).
Proof.
  rewrite ds_legacy_entry, ds_modern_entry.
  apply downstream_channel_view; unfold ds_labels; simpl;
    rewrite ?or_str_py_or_sides, ?float_or_0_py_or_sides; reflexivity.
Qed.

(** A document whose root holds only channel elements, none of which
    nests another channel: [findall] returns the children. *)
Lemma findall_flat (t : string) (l : list element) :
  Forall (fun e => has_tag t e = true
                   /\ filter (has_tag t) (descendants e) = []) l ->
  findall_desc (Element "root" None l) t = l.
Proof.
  unfold findall_desc. cbn [descendants].
  induction 1 as [|e l [Htag Hdesc] Hl IH]; [reflexivity|].
  cbn [flat_map]. rewrite filter_app. cbn [filter].
  now rewrite Htag, Hdesc, IH.
Qed.

Lemma findall_ds_legacy vs :
  findall_desc (Element "root" None (map ds_legacy vs)) "downstream"
  = map ds_legacy vs.
Proof.
  apply findall_flat, Forall_forall. intros e Hin.
  apply in_map_iff in Hin as (v & <- & _).
  destruct v as [[a|] [b|] [c|] [d|] [e|] [f|] [g|] [h|]];
    split; reflexivity.
Qed.

Lemma findall_ds_modern vs :
  findall_desc (Element "root" None (map ds_modern vs)) "downstream"
  = map ds_modern vs.
Proof.
  apply findall_flat, Forall_forall. intros e Hin.
  apply in_map_iff in Hin as (v & <- & _).
  destruct v as [[a|] [b|] [c|] [d|] [e|] [f|] [g|] [h|]];
    split; reflexivity.
Qed.

Lemma findall_us_legacy ws :
  findall_desc (Element "root" None (map us_legacy ws)) "upstream"
  = map us_legacy ws.
Proof.
  apply findall_flat, Forall_forall. intros e Hin.
  apply in_map_iff in Hin as (w & <- & _).
  destruct w as [[a|] [b|] [c|] [d|] [e|]]; split; reflexivity.
Qed.

Lemma findall_us_modern ws :
  findall_desc (Element "root" None (map us_modern ws)) "upstream"
  = map us_modern ws.
Proof.
  apply findall_flat, Forall_forall. intros e Hin.
  apply in_map_iff in Hin as (w & <- & _).
  destruct w as [[a|] [b|] [c|] [d|] [e|]]; split; reflexivity.
Qed.

(** Downstream: the two schemas are processed identically, from any
    state. *)
Lemma for_downstream_schema vs st :
  for_downstream (channels (map ds_legacy vs)) st
  = for_downstream (channels (map ds_modern vs)) st.
Proof.
  unfold for_downstream, channels, parse_downstream, lift, bind, ret.
  rewrite findall_ds_legacy, findall_ds_modern, !map_map.
  clear. revert st. induction vs as [|v vs IH]; intros st; simpl.
  - reflexivity.
  - unfold bind. rewrite downstream_channel_schema.
    destruct (downstream_channel (downstream_entry (ds_modern v)) st)
      as [[[]|e] st']; [apply IH | reflexivity].
Qed.

Lemma registered_names n reg :
  registered n reg = existsb (fun m => String.eqb m n) (map f_name reg).
Proof.
  unfold registered. induction reg as [|f reg IH]; simpl; congruence.
Qed.

Lemma type_blind_refl st : type_blind st st.
Proof. now split. Qed.

Lemma type_blind_registered st st' n :
  type_blind st st' ->
  registered n (registry st) = registered n (registry st').
Proof. intros [Hn _]. now rewrite !registered_names, Hn. Qed.

Lemma type_blind_push st st' n h kv kv' v :
  type_blind st st' -> forget kv = forget kv' ->
  type_blind (push st (single n h kv v)) (push st' (single n h kv' v)).
Proof.
  intros [Hn Hs] Hkv. unfold type_blind, push. simpl.
  rewrite !map_app, !collect_app, !map_app, !collect_single, Hn, Hs.
  simpl. unfold forget_type. simpl. now rewrite Hkv.
Qed.

Lemma us_legacy_entry w :
  upstream_entry (us_legacy w) =
  {| us_usid := w_usid w;
     us_locked := py_or (w_locked w) None;
     us_type := "SC-QAM";
     us_frequency := py_or (w_frequency w) None;
     us_bandwidth := py_or (w_bandwidth w) None;
     us_power := py_or (w_power w) None |}.
Proof. destruct w as [[a|] [b|] [c|] [d|] [e|]]; reflexivity. Qed.

Lemma us_modern_entry w :
  upstream_entry (us_modern w) =
  {| us_usid := w_usid w;
     us_locked := py_or None (w_locked w);
     us_type := if is_some (w_locked w) then "OFDMA" else "SC-QAM";
     us_frequency := py_or None (w_frequency w);
     us_bandwidth := py_or None (w_bandwidth w);
     us_power := py_or None (w_power w) |}.
Proof. destruct w as [[a|] [b|] [c|] [d|] [e|]]; reflexivity. Qed.

Lemma sim_upstream_schema w :
  sim type_blind (upstream_channel (upstream_entry (us_legacy w)))
    (upstream_channel (upstream_entry (us_modern w))).
Proof.
  rewrite us_legacy_entry, us_modern_entry.
  apply sim_upstream_channel
    with (kv_rel := fun kv kv' => forget kv = forget kv');
    auto using type_blind_registered, type_blind_push;
    simpl; rewrite ?or_str_py_or_sides, ?float_or_0_py_or_sides;
    reflexivity.
Qed.

(** Upstream: the two schemas end with the same result and with the same
    samples up to the [type] label, from any state. *)
Lemma for_upstream_schema ws :
  sim type_blind (for_upstream (channels (map us_legacy ws)))
    (for_upstream (channels (map us_modern ws))).
Proof.
  unfold for_upstream, channels, parse_upstream.
  rewrite findall_us_legacy, findall_us_modern, !map_map.
  intros st st' H. unfold lift, bind, ret.
  revert st st' H. induction ws as [|w ws IH]; intros st st' H; simpl.
  - now split.
  - unfold bind.
    destruct (sim_upstream_schema w H) as [Hres Hst].
    destruct (upstream_channel (upstream_entry (us_legacy w)) st)
      as [[[]|e] s1],
      (upstream_channel (upstream_entry (us_modern w)) st')
      as [[[]|e'] s1']; simpl in *; try discriminate.
    + now apply IH.
    + inversion Hres; subst. now split.
Qed.

(** C9, as the code has it. A downstream payload written in the legacy
    schema and one written in the modern schema with the same values are
    processed to the same result and the same registry, hence to the same
    samples, from any state. For upstream payloads the two schemas give
    the same result and the same samples up to the derived [type] label,
    which is "SC-QAM" on every legacy record and "OFDMA" on every modern
    record that carries a lock field. *)
Theorem C9_schema_transparency_up_to_type :
  (forall (vs : list ds_values) (st : pass_state),
     for_downstream (channels (map ds_legacy vs)) st
     = for_downstream (channels (map ds_modern vs)) st) /\
  (forall (ws : list us_values) (st : pass_state),
     let legacy := for_upstream (channels (map us_legacy ws)) st in
     let modern := for_upstream (channels (map us_modern ws)) st in
     fst legacy = fst modern /\
     map forget_type (collect (registry (snd legacy)))
     = map forget_type (collect (registry (snd modern)))) /\
  (forall w : us_values,
     us_type (upstream_entry (us_legacy w)) = "SC-QAM" /\
     us_type (upstream_entry (us_modern w))
     = if is_some (w_locked w) then "OFDMA" else "SC-QAM").
Proof.
  split; [exact for_downstream_schema|]. split.
  - intros ws st. cbv zeta.
    destruct (for_upstream_schema ws (type_blind_refl st)) as [Hres [_ Hs]].
    now split.
  - intros w. now rewrite us_legacy_entry, us_modern_entry.
Qed.

(** * Further properties of the handler *)

(** ** The status dict *)

Lemma dict_get_tabulate (f : string -> string) (l : list string) k :
  dict_get (map (fun t => (t, f t)) l) k
  = if in_dec string_dec k l then Some (f k) else None.
Proof.
  induction l as [|t l IH]; simpl; [reflexivity|].
  destruct (String.eqb t k) eqn:E.
  - apply String.eqb_eq in E. subst.
    destruct (string_dec k k); [|congruence].
    destruct (in_dec string_dec k l); reflexivity.
  - apply String.eqb_neq in E. rewrite IH.
    destruct (string_dec t k); [contradiction|].
    destruct (in_dec string_dec k l); reflexivity.
Qed.

Lemma findtext_desc_first root t pre e post :
  descendants root = pre ++ e :: post ->
  (forall x, In x pre -> tag_of x <> t) ->
  tag_of e = t ->
  findtext_desc root t = text_of e.
Proof.
  intros Hd Hpre He. unfold findtext_desc, findall_desc. rewrite Hd.
  rewrite filter_app.
  assert (Hnil : filter (has_tag t) pre = []).
  { clear Hd. induction pre as [|x pre IH]; simpl; [reflexivity|].
    unfold has_tag at 1.
    destruct (String.eqb (tag_of x) t) eqn:E.
    - apply String.eqb_eq in E. exfalso. apply (Hpre x); simpl; auto.
    - apply IH. intros y Hy. apply Hpre. now right. }
  rewrite Hnil. simpl. unfold has_tag at 1.
  now rewrite He, String.eqb_refl.
Qed.

Lemma findtext_desc_none root t :
  (forall x, In x (descendants root) -> tag_of x <> t) ->
  findtext_desc root t = "".
Proof.
  intros H. unfold findtext_desc, findall_desc.
  induction (descendants root) as [|x l IH]; simpl; [reflexivity|].
  unfold has_tag at 1. destruct (String.eqb (tag_of x) t) eqn:E.
  - apply String.eqb_eq in E. exfalso. apply (H x); simpl; auto.
  - apply IH. intros y Hy. apply H. now right.
Qed.

(** X1. [parse_status] of a well-formed document never raises. The dict
    has exactly the fourteen tags of interest as keys; a tag is mapped to
    the text of the first element below the root that carries it, in
    document order and at any depth, and to the empty string when no
    element below the root carries it. *)
Theorem parse_status_lookup :
  forall (root : element) (tag : string),
  exists d,
    parse_status (Doc root) = Ok d /\
    (In tag status_tags -> dict_get d tag = Some (findtext_desc root tag)) /\
    (~ In tag status_tags -> dict_get d tag = None) /\
    (forall pre e post,
       descendants root = pre ++ e :: post ->
       (forall x, In x pre -> tag_of x <> tag) ->
       tag_of e = tag ->
       findtext_desc root tag = text_of e) /\
    ((forall x, In x (descendants root) -> tag_of x <> tag) ->
     findtext_desc root tag = "").
Proof.
  intros root tag. eexists. split; [reflexivity|].
  rewrite dict_get_tabulate.
  destruct (in_dec string_dec tag status_tags) as [Hin | Hout].
  - split; [reflexivity|]. split; [contradiction|].
    split; [apply findtext_desc_first | apply findtext_desc_none].
  - split; [contradiction|]. split; [reflexivity|].
    split; [apply findtext_desc_first | apply findtext_desc_none].
Qed.

Lemma parse_status_lookup_witness :
  exists d,
    parse_status (Doc status_with_duplicates) = Ok d /\
    dict_get d "cm_system_uptime" = Some "10 days" /\
    dict_get d "HwModel" = Some "" /\
    dict_get d "uptime" = None.
Proof.
  destruct (parse_status_lookup status_with_duplicates "cm_system_uptime")
    as (d & Hd & Hin & _ & _).
  exists d. split; [exact Hd|]. split.
  - rewrite Hin by (simpl; auto 10). reflexivity.
  - inversion Hd; subst. split; reflexivity.
Defined.

(** ** Success statuses *)

Lemma login_same dev dev' st :
  same_login (login_xml dev) (login_xml dev') ->
  login dev st = login dev' st.
Proof.
  unfold same_login, login, bind.
  destruct (login_xml dev) as [|s c], (login_xml dev') as [|s' c'];
    try contradiction; [reflexivity|].
  now intros ->.
Qed.

Lemma plain_success_no_error s :
  plain_success s = true -> (400 <=? s) && (s <? 600) = false.
Proof.
  unfold plain_success. intros H.
  apply andb_true_iff in H as [H _]. apply andb_true_iff in H as [_ H].
  apply Z.ltb_lt in H. apply andb_false_iff. left.
  apply Z.leb_gt. lia.
Qed.

Lemma fetch_xml_same dev dev' f st :
  same_reply (getter_xml dev f) (getter_xml dev' f) ->
  fetch_xml dev f st = fetch_xml dev' f st.
Proof.
  unfold same_reply, fetch_xml, bind, raise_for_status.
  destruct (getter_xml dev f) as [|s c], (getter_xml dev' f) as [|s' c'];
    try contradiction; [reflexivity|].
  intros [-> [-> | [Hs Hs']]]; [reflexivity|].
  now rewrite (plain_success_no_error s), (plain_success_no_error s').
Qed.

Lemma for_each_pointwise {A} (l : list A) (body body' : A -> M unit) :
  (forall a st, body a st = body' a st) ->
  forall st, for_each l body st = for_each l body' st.
Proof.
  intros H. induction l as [|a l IH]; intros st; simpl; [reflexivity|].
  unfold bind. rewrite H.
  destruct (body' a st) as [[[]|e] st']; [apply IH | reflexivity].
Qed.

(** X2. The handler does not tell one success status from another. Two
    modems whose logins set the same cookies, under any status, and
    whose getters return the same bodies, under the same status or under
    two plain success statuses (200 to 299 without 204), get the same
    response, the same registry and the same log of requests. *)
Theorem success_statuses_are_not_told_apart :
  forall dev dev' : modem,
    same_login (login_xml dev) (login_xml dev') ->
    (forall f, same_reply (getter_xml dev f) (getter_xml dev' f)) ->
    metrics dev = metrics dev'.
Proof.
  intros dev dev' Hlogin Hget. unfold metrics, metrics_over.
  rewrite (login_same dev dev' fresh_state Hlogin).
  destruct (login dev' fresh_state) as [[b|e] st1]; [|reflexivity].
  assert (Hstatus : status_metrics dev st1 = status_metrics dev' st1).
  { unfold status_metrics, bind at 1.
    rewrite (fetch_xml_same dev dev' 1 st1 (Hget 1)). reflexivity. }
  rewrite Hstatus.
  destruct (status_metrics dev' st1) as [[[]|e] st2]; [|reflexivity].
  assert (Hgroups : channel_groups downstream_funs upstream_funs dev st2
                    = channel_groups downstream_funs upstream_funs dev' st2).
  { unfold channel_groups, bind.
    rewrite (for_each_pointwise downstream_funs
               (downstream_group dev) (downstream_group dev')).
    - destruct (for_each downstream_funs (downstream_group dev') st2)
        as [[[]|e] st']; [|reflexivity].
      apply for_each_pointwise. intros f st.
      unfold upstream_group, try_Exception, bind.
      now rewrite (fetch_xml_same dev dev' f st (Hget f)).
    - intros f st. unfold downstream_group, try_Exception, bind.
      now rewrite (fetch_xml_same dev dev' f st (Hget f)). }
  now rewrite Hgroups.
Qed.

Lemma success_statuses_are_not_told_apart_witness :
  metrics modem_plain = metrics modem_odd_statuses.
Proof.
  apply success_statuses_are_not_told_apart.
  - reflexivity.
  - intros f. unfold same_reply, modem_plain, modem_odd_statuses. simpl.
    destruct (f =? 1); [split; [reflexivity | right; split; reflexivity]|].
    destruct (f =? 10); [split; [reflexivity | right; split; reflexivity]|].
    split; [reflexivity | left; reflexivity].
Defined.

(** ** Properties that every statement of the handler keeps *)

Lemma plain_gauge_set_run n h v st :
  plain_gauge_set n h v st =
  if registered n (registry st) then (Raise ValueError, st)
  else (Ok tt, push st (single n h [] v)).
Proof.
  unfold plain_gauge_set, bind, Gauge, set, modify_registry.
  destruct (registered n (registry st)) eqn:Hreg; [reflexivity|].
  simpl. rewrite on_family_last by (auto; reflexivity). reflexivity.
Qed.

Lemma status_metrics_split dev st :
  status_metrics dev st = bind (fetch_xml dev 1) status_gauges st.
Proof. reflexivity. Qed.

Lemma fetch_xml_state dev f st :
  snd (fetch_xml dev f st) = snd (log_request (PostGetter f) st).
Proof.
  unfold fetch_xml, bind, raise_for_status. simpl.
  destruct (getter_xml dev f) as [|s c]; [reflexivity|].
  now destruct ((400 <=? s) && (s <? 600)).
Qed.

Section Preservation.

Variable P : pass_state -> Prop.
Variable entry_ok : string -> list (string * string) -> Prop.

Hypothesis P_push :
  forall st n h kv v,
    P st -> registered n (registry st) = false -> entry_ok n kv ->
    P (push st (single n h kv v)).
Hypothesis P_log :
  forall st r, P st -> P (snd (log_request r st)).

Lemma preserves_ret {A} (a : A) : preserves P (ret a).
Proof. intros st H. exact H. Qed.

Lemma preserves_raise {A} e : preserves P (@raise A e).
Proof. intros st H. exact H. Qed.

Lemma preserves_bind {A B} (m : M A) (k : A -> M B) :
  preserves P m -> (forall a, preserves P (k a)) -> preserves P (bind m k).
Proof.
  intros Hm Hk st H. unfold bind. specialize (Hm st H).
  destruct (m st) as [[a|e] s1]; simpl in *; [now apply Hk | exact Hm].
Qed.

Lemma preserves_try_ValueError m :
  preserves P m -> preserves P (try_ValueError m).
Proof.
  intros Hm st H. unfold try_ValueError. specialize (Hm st H).
  destruct (m st) as [[a|e] s1]; simpl in *; [exact Hm|].
  now destruct (is_ValueError e).
Qed.

Lemma preserves_try_Exception m :
  preserves P m -> preserves P (try_Exception m).
Proof.
  intros Hm st H. unfold try_Exception. specialize (Hm st H).
  now destruct (m st) as [[a|e] s1].
Qed.

Lemma preserves_for_each {A} (l : list A) body :
  (forall a, In a l -> preserves P (body a)) ->
  preserves P (for_each l body).
Proof.
  induction l as [|a l IH]; intros Hb; simpl.
  - apply preserves_ret.
  - apply preserves_bind; [apply Hb; now left|].
    intros _. apply IH. intros b Hin. apply Hb. now right.
Qed.

Lemma preserves_or_raise {A} e (o : option A) : preserves P (or_raise e o).
Proof. destruct o; [apply preserves_ret | apply preserves_raise]. Qed.

Lemma preserves_lift {A} (r : result A) : preserves P (lift r).
Proof. destruct r; [apply preserves_ret | apply preserves_raise]. Qed.

Lemma preserves_gauge_set n h kv v :
  entry_ok n kv -> preserves P (gauge_set n h kv v).
Proof.
  intros Hok st H. rewrite gauge_set_run.
  destruct (registered n (registry st)) eqn:E; simpl; auto.
Qed.

Lemma preserves_gauge_set_int n h kv z :
  entry_ok n kv -> preserves P (gauge_set_int n h kv z).
Proof.
  intros Hok st H. rewrite gauge_set_int_run.
  destruct (registered n (registry st)) eqn:E; simpl; auto.
  destruct (float_of_int z); simpl; auto.
Qed.

Lemma preserves_plain_gauge_set n h v :
  entry_ok n [] -> preserves P (plain_gauge_set n h v).
Proof.
  intros Hok st H. rewrite plain_gauge_set_run.
  destruct (registered n (registry st)) eqn:E; simpl; auto.
Qed.

Lemma preserves_downstream_channel ds :
  (forall n, In n downstream_names -> entry_ok n (ds_labels ds)) ->
  preserves P (downstream_channel ds).
Proof.
  intros Hok. unfold downstream_channel. cbv zeta.
  repeat first
    [ apply preserves_gauge_set; apply Hok; name_in_list
    | apply preserves_gauge_set_int; apply Hok; name_in_list
    | apply preserves_try_ValueError | apply preserves_or_raise
    | apply preserves_bind | intro ].
Qed.

Lemma preserves_upstream_channel us :
  (forall n, In n upstream_names -> entry_ok n (us_labels us)) ->
  preserves P (upstream_channel us).
Proof.
  intros Hok. unfold upstream_channel. cbv zeta.
  repeat first
    [ apply preserves_gauge_set; apply Hok; name_in_list
    | apply preserves_try_ValueError | apply preserves_or_raise
    | apply preserves_bind | intro ].
Qed.

Hypothesis ok_downstream :
  forall e n, In n downstream_names ->
    entry_ok n (ds_labels (downstream_entry e)).
Hypothesis ok_upstream :
  forall e n, In n upstream_names ->
    entry_ok n (us_labels (upstream_entry e)).
Hypothesis ok_status : forall n, In n status_names -> entry_ok n [].

Lemma preserves_for_downstream xml : preserves P (for_downstream xml).
Proof.
  destruct xml as [|root]; intros st H; [exact H|].
  unfold for_downstream, parse_downstream, lift, bind, ret.
  apply preserves_for_each; [|exact H].
  intros ds Hin. apply in_map_iff in Hin as (e & <- & _).
  apply preserves_downstream_channel. apply ok_downstream.
Qed.

Lemma preserves_for_upstream xml : preserves P (for_upstream xml).
Proof.
  destruct xml as [|root]; intros st H; [exact H|].
  unfold for_upstream, parse_upstream, lift, bind, ret.
  apply preserves_for_each; [|exact H].
  intros us Hin. apply in_map_iff in Hin as (e & <- & _).
  apply preserves_upstream_channel. apply ok_upstream.
Qed.

Lemma preserves_uptime_metric u : preserves P (uptime_metric u).
Proof.
  unfold uptime_metric.
  apply preserves_bind; [apply preserves_or_raise|]. intros tok.
  apply preserves_try_ValueError, preserves_bind;
    [apply preserves_or_raise|].
  intros v.
  apply (@preserves_plain_gauge_set "modem_system_uptime_seconds"
           "System Uptime" v).
  apply ok_status. name_in_list.
Qed.

Lemma preserves_status_gauges xml : preserves P (status_gauges xml).
Proof.
  unfold status_gauges.
  apply preserves_bind; [apply preserves_lift|]. intros status.
  apply preserves_bind.
  - destruct (dict_get status "cm_system_uptime") as [[|c s]|];
      auto using preserves_ret, preserves_uptime_metric.
  - intros _. destruct (dict_get status "cm_docsis_mode") as [mode|];
      [|apply preserves_ret].
    apply (@preserves_plain_gauge_set "modem_docsis_mode"
             "DOCSIS mode (1 for 3.1, 0 otherwise)").
    apply ok_status. name_in_list.
Qed.

Lemma preserves_fetch_xml dev f : preserves P (fetch_xml dev f).
Proof. intros st H. rewrite fetch_xml_state. now apply P_log. Qed.

Lemma preserves_status_metrics dev : preserves P (status_metrics dev).
Proof.
  intros st. rewrite status_metrics_split. revert st.
  apply preserves_bind;
    [apply preserves_fetch_xml | apply preserves_status_gauges].
Qed.

Lemma preserves_channel_groups dfs ufs dev :
  preserves P (channel_groups dfs ufs dev).
Proof.
  unfold channel_groups, downstream_group, upstream_group.
  apply preserves_bind; [|intros _]; apply preserves_for_each;
    intros f _; apply preserves_try_Exception, preserves_bind;
    first [ apply preserves_fetch_xml
          | intros xml; apply preserves_for_downstream
          | intros xml; apply preserves_for_upstream ].
Qed.

End Preservation.

(** ** The requests of a pass *)

Lemma login_state dev :
  registry (snd (login dev fresh_state)) = [] /\
  requests (snd (login dev fresh_state)) = [PostLogin].
Proof.
  unfold login, bind, log_request, fresh_state.
  destruct (login_xml dev) as [|s cs]; [split; reflexivity|].
  unfold add_cookies, has_cookie, ret, raise.
  cbn [cookies registry requests app].
  destruct (existsb (String.eqb "sessionToken") cs); split; reflexivity.
Qed.

Lemma requests_push st f : requests (push st f) = requests st.
Proof. reflexivity. Qed.

(** The gauges never post anything. *)
Lemma keeps_requests_push (r0 : list request) st n h
  (kv : list (string * string)) v :
  requests st = r0 -> registered n (registry st) = false -> True ->
  requests (push st (single n h kv v)) = r0.
Proof. intros H _ _. exact H. Qed.

Lemma status_gauges_requests xml st :
  requests (snd (status_gauges xml st)) = requests st.
Proof.
  apply (@preserves_status_gauges (fun s => requests s = requests st)
           (fun _ _ => True)); auto using keeps_requests_push.
Qed.

Lemma for_downstream_requests xml st :
  requests (snd (for_downstream xml st)) = requests st.
Proof.
  apply (@preserves_for_downstream (fun s => requests s = requests st)
           (fun _ _ => True)); auto using keeps_requests_push.
Qed.

Lemma for_upstream_requests xml st :
  requests (snd (for_upstream xml st)) = requests st.
Proof.
  apply (@preserves_for_upstream (fun s => requests s = requests st)
           (fun _ _ => True)); auto using keeps_requests_push.
Qed.

Lemma status_metrics_requests dev st :
  requests (snd (status_metrics dev st)) = requests st ++ [PostGetter 1].
Proof.
  rewrite status_metrics_split. unfold bind.
  pose proof (fetch_xml_state dev 1 st) as Hs.
  destruct (fetch_xml dev 1 st) as [[xml|e] s1]; simpl in Hs; subst s1.
  - now rewrite status_gauges_requests.
  - reflexivity.
Qed.

Lemma downstream_group_requests dev f st :
  requests (snd (downstream_group dev f st)) = requests st ++ [PostGetter f].
Proof.
  unfold downstream_group, try_Exception, bind.
  pose proof (fetch_xml_state dev f st) as Hs.
  destruct (fetch_xml dev f st) as [[xml|e] s1]; simpl in Hs; subst s1.
  - pose proof (for_downstream_requests xml
                  (snd (log_request (PostGetter f) st))) as Hr.
    destruct (for_downstream xml _) as [[[]|e] s2]; exact Hr.
  - reflexivity.
Qed.

Lemma upstream_group_requests dev f st :
  requests (snd (upstream_group dev f st)) = requests st ++ [PostGetter f].
Proof.
  unfold upstream_group, try_Exception, bind.
  pose proof (fetch_xml_state dev f st) as Hs.
  destruct (fetch_xml dev f st) as [[xml|e] s1]; simpl in Hs; subst s1.
  - pose proof (for_upstream_requests xml
                  (snd (log_request (PostGetter f) st))) as Hr.
    destruct (for_upstream xml _) as [[[]|e] s2]; exact Hr.
  - reflexivity.
Qed.

Lemma for_each_group_requests (group : Z -> M unit) (l : list Z) st :
  (forall f s, fst (group f s) = Ok tt) ->
  (forall f s, requests (snd (group f s)) = requests s ++ [PostGetter f]) ->
  requests (snd (for_each l group st)) = requests st ++ map PostGetter l.
Proof.
  intros Hok Hreq. revert st.
  induction l as [|f l IH]; intros st; simpl.
  - now rewrite app_nil_r.
  - unfold bind. specialize (Hok f st). specialize (Hreq f st).
    destruct (group f st) as [[[]|e] s1]; simpl in *; [|discriminate].
    rewrite IH, Hreq, <- app_assoc. reflexivity.
Qed.

Lemma channel_groups_requests dfs ufs dev st :
  requests (snd (channel_groups dfs ufs dev st))
  = requests st ++ map PostGetter (dfs ++ ufs).
Proof.
  unfold channel_groups, bind.
  pose proof (for_each_group_requests (downstream_group dev) dfs st
                (fun f s => try_Exception_ok _ s)
                (downstream_group_requests dev)) as Hd.
  pose proof (for_each_ok dfs (downstream_group dev) st
                (fun f s => try_Exception_ok _ s)) as Hok.
  destruct (for_each dfs (downstream_group dev) st) as [[[]|e] s1];
    simpl in *; [|discriminate].
  rewrite (for_each_group_requests (upstream_group dev) ufs s1
             (fun f s => try_Exception_ok _ s)
             (upstream_group_requests dev)).
  now rewrite Hd, map_app, app_assoc.
Qed.

(** X3. The requests of a pass are fixed by its outcome: the login POST
    alone when the login fails, the login POST and the getter POST for
    function number 1 when the status block fails, and otherwise the
    login POST followed by the getter POSTs for 1, 9, 10, 6 and 11, each
    once and in that order, whatever the channel getters answer. *)
Theorem requests_of_a_pass :
  forall dev : modem,
    requests (snd (metrics dev)) =
    PostLogin ::
      match content (fst (metrics dev)) with
      | LoginFailed _ => []
      | StatusFailed _ => [PostGetter 1]
      | _ => all_getters
      end.
Proof.
  intros dev. unfold metrics, metrics_over.
  destruct (login_state dev) as [_ Hlog].
  destruct (login dev fresh_state) as [[b|e] st1]; simpl in Hlog;
    [|exact Hlog].
  pose proof (status_metrics_requests dev st1) as Hst.
  destruct (status_metrics dev st1) as [[[]|e] st2]; simpl in Hst;
    [|simpl; rewrite Hst, Hlog; reflexivity].
  pose proof (channel_groups_requests downstream_funs upstream_funs dev st2)
    as Hch.
  pose proof (channel_groups_ok downstream_funs upstream_funs dev st2)
    as Hok.
  destruct (channel_groups downstream_funs upstream_funs dev st2)
    as [[[]|e] st3]; simpl in *; [|discriminate].
  rewrite Hch, Hst, Hlog. reflexivity.
Qed.

(** X4. No exception leaves the handler: the answer is 200 with the
    exposition of the registry, or 500 with the login failure or the
    status failure, and it is a login failure exactly when [login]
    raised. *)
Theorem handler_catches_everything :
  forall dev : modem,
    let r := fst (metrics dev) in
    (forall e, content r <> Uncaught e) /\
    (status_code r = 200 <-> exists samples, content r = Exposition samples) /\
    (status_code r = 500 <->
     exists e, content r = LoginFailed e \/ content r = StatusFailed e) /\
    (forall e, content r = LoginFailed e <->
               fst (login dev fresh_state) = Raise e).
Proof.
  intros dev. cbv zeta. unfold metrics, metrics_over.
  destruct (login dev fresh_state) as [[b|e] st1].
  - assert (Hno : forall e, Ok b <> @Raise bool e) by discriminate.
    destruct (status_metrics dev st1) as [[[]|e] st2].
    + pose proof (channel_groups_ok downstream_funs upstream_funs dev st2)
        as Hok.
      destruct (channel_groups downstream_funs upstream_funs dev st2)
        as [[[]|e] st3]; simpl in *; [|discriminate].
      repeat split; try discriminate; eauto;
        try (intros [e [H | H]]; discriminate).
    + simpl. repeat split; try discriminate; eauto;
        try (intros [x H]; discriminate).
  - simpl. repeat split; try discriminate; eauto;
      try (intros [x H]; discriminate);
      intros H; inversion H; reflexivity.
Qed.

(** ** The status block is mandatory *)

(** X5. Once logged in, a failed fetch of function number 1 (no
    response, an error status or a body that is not XML) fails the whole
    pass: the answer is 500 with the status failure, the registry is
    empty and no channel getter is ever posted. *)
Theorem failed_status_fails_the_pass :
  forall (dev : modem) (ls : Z) (cs : list string),
    login_xml dev = Reply ls cs ->
    In "sessionToken" cs ->
    fetch_fails dev 1 ->
    (exists e, fst (metrics dev) = Response 500 (StatusFailed e)) /\
    registry (snd (metrics dev)) = [] /\
    requests (snd (metrics dev)) = [PostLogin; PostGetter 1].
Proof.
  intros dev ls cs Hlogin Hin Hfail. apply has_token_iff in Hin.
  unfold metrics, metrics_over. rewrite (login_run dev Hlogin), Hin.
  rewrite status_metrics_split. unfold bind.
  destruct (failed_fetch dev 1
              {| cookies := cs; registry := []; requests := [PostLogin] |}
              Hfail) as [[e ->] | ->]; simpl.
  - split; [now exists e|]. split; reflexivity.
  - split; [now exists XMLSyntaxError|]. split; reflexivity.
Qed.

Lemma failed_status_fails_the_pass_witness :
  (exists e, fst (metrics modem_status_down) = Response 500 (StatusFailed e))
  /\ registry (snd (metrics modem_status_down)) = []
  /\ requests (snd (metrics modem_status_down)) = [PostLogin; PostGetter 1].
Proof.
  apply (@failed_status_fails_the_pass modem_status_down 200
           ["sessionToken"] eq_refl).
  - simpl. auto.
  - unfold fetch_fails. simpl. left. lia.
Defined.

(** ** One sample per metric, well labelled *)

Lemma or_str_not_empty v d : d <> "" -> or_str v d <> "".
Proof. destruct v as [[|c s]|]; simpl; auto; discriminate. Qed.

Lemma well_labelled_downstream e n :
  In n downstream_names -> well_labelled n (ds_labels (downstream_entry e)).
Proof.
  intros Hn. right. left. split; [exact Hn|].
  eexists _, _. split; [reflexivity|].
  split; apply or_str_not_empty; discriminate.
Qed.

Lemma well_labelled_upstream e n :
  In n upstream_names -> well_labelled n (us_labels (upstream_entry e)).
Proof.
  intros Hn. right. right. split; [exact Hn|].
  eexists _, _. split; [reflexivity|].
  split; [apply or_str_not_empty; discriminate|].
  simpl. destruct (find e "ofdmaLocked"); auto.
Qed.

Lemma well_labelled_status n : In n status_names -> well_labelled n [].
Proof. intros Hn. left. now split. Qed.

Lemma unregistered_not_in n reg :
  registered n reg = false -> ~ In n (map f_name reg).
Proof.
  rewrite registered_names. intros H Hin.
  assert (existsb (fun m => String.eqb m n) (map f_name reg) = true).
  { apply existsb_exists. exists n. split; auto. apply String.eqb_refl. }
  congruence.
Qed.

Lemma tidy_push st n h kv v :
  tidy st -> registered n (registry st) = false -> well_labelled n kv ->
  tidy (push st (single n h kv v)).
Proof.
  intros [Hnd Hall] Hreg Hok. unfold tidy, push. simpl. split.
  - rewrite map_app. simpl. apply NoDup_app; auto.
    + repeat constructor. intros [].
    + intros x Hx [<- | []]. revert Hx. now apply unregistered_not_in.
  - apply Forall_app. split; [exact Hall|]. constructor; [|constructor].
    exists (map snd kv), v. split; [reflexivity|].
    simpl. now rewrite combine_fst_snd_id.
Qed.

Lemma tidy_log st r : tidy st -> tidy (snd (log_request r st)).
Proof. intros H. exact H. Qed.

Lemma tidy_empty st : registry st = [] -> tidy st.
Proof. intros H. unfold tidy. rewrite H. split; constructor. Qed.

(** The registry of a pass is tidy at the end, whatever the modem. *)
Lemma metrics_tidy dev : tidy (snd (metrics dev)).
Proof.
  unfold metrics, metrics_over.
  destruct (login_state dev) as [Hreg _].
  destruct (login dev fresh_state) as [[b|e] st1]; simpl in Hreg;
    [|now apply tidy_empty].
  pose proof (@preserves_status_metrics tidy well_labelled tidy_push
                tidy_log well_labelled_status dev st1 (tidy_empty st1 Hreg))
    as H2.
  destruct (status_metrics dev st1) as [[[]|e] st2]; simpl in H2;
    [|exact H2].
  pose proof (@preserves_channel_groups tidy well_labelled tidy_push
                tidy_log well_labelled_downstream well_labelled_upstream
                downstream_funs upstream_funs dev st2 H2) as H3.
  destruct (channel_groups downstream_funs upstream_funs dev st2)
    as [[[]|e] st3]; exact H3.
Qed.

Lemma collect_one_child reg :
  Forall one_child reg ->
  map s_name (collect reg) = map f_name reg /\
  Forall well_labelled_sample (collect reg).
Proof.
  induction 1 as [|f reg (vs & v & Hch & Hok) Hall [IHn IHw]].
  - split; constructor.
  - unfold collect in *. simpl. unfold family_samples at 1 3.
    rewrite Hch. simpl. split.
    + now rewrite IHn.
    + constructor; [exact Hok | exact IHw].
Qed.

Lemma exposed_cases dev :
  exposed (fst (metrics dev)) = collect (registry (snd (metrics dev)))
  \/ exposed (fst (metrics dev)) = [].
Proof.
  unfold metrics, metrics_over.
  destruct (login dev fresh_state) as [[b|e] st1]; [|now right].
  destruct (status_metrics dev st1) as [[[]|e] st2]; [|now right].
  destruct (channel_groups downstream_funs upstream_funs dev st2)
    as [[[]|e] st3]; [now left | now right].
Qed.

Lemma well_labelled_known n kv : well_labelled n kv -> In n metric_names.
Proof.
  unfold metric_names.
  intros [[H _] | [[H _] | [H _]]]; rewrite !in_app_iff; auto.
Qed.

(** X6. A pass exposes at most one sample per metric name, whatever the
    number of channels the payloads hold: the names of the exposition
    are pairwise distinct, they are among the ten metric names of the
    exporter, and so there are at most ten samples. *)
Theorem one_sample_per_metric :
  forall dev : modem,
    NoDup (names_exposed (fst (metrics dev))) /\
    incl (names_exposed (fst (metrics dev))) metric_names /\
    (List.length (exposed (fst (metrics dev))) <= 10)%nat.
Proof.
  intros dev. unfold names_exposed.
  destruct (metrics_tidy dev) as [Hnd Hall].
  destruct (collect_one_child Hall) as [Hnames Hwell].
  assert (H : NoDup (map s_name (exposed (fst (metrics dev)))) /\
              incl (map s_name (exposed (fst (metrics dev)))) metric_names).
  { destruct (exposed_cases dev) as [-> | ->].
    - rewrite Hnames. split; [exact Hnd|].
      rewrite <- Hnames. intros n Hn.
      apply in_map_iff in Hn as (s & <- & Hs).
      rewrite Forall_forall in Hwell.
      exact (well_labelled_known (Hwell s Hs)).
    - split; [constructor | intros n []]. }
  destruct H as [H1 H2]. split; [exact H1|]. split; [exact H2|].
  rewrite <- (List.length_map s_name).
  exact (NoDup_incl_length H1 H2).
Qed.

(** X7. Every sample of an exposition is well labelled: a status metric
    has no label; a downstream metric has the labels [channel] and
    [modulation], an upstream metric the labels [channel] and [type], in
    that order; no label value is empty, and the type is "OFDMA" or
    "SC-QAM", never the "unknown" of the handler's fallback. *)
Theorem exposed_samples_well_labelled :
  forall (dev : modem) (s : sample),
    In s (exposed (fst (metrics dev))) -> well_labelled_sample s.
Proof.
  intros dev s Hin.
  destruct (metrics_tidy dev) as [_ Hall].
  destruct (collect_one_child Hall) as [_ Hwell].
  destruct (exposed_cases dev) as [H | H]; rewrite H in Hin.
  - rewrite Forall_forall in Hwell. now apply Hwell.
  - destruct Hin.
Qed.

Lemma exposed_samples_well_labelled_witness :
  well_labelled_sample
    (sample_of "modem_downstream_locked" "Channel Locked (1 if locked)"
       [("channel", "1"); ("modulation", "QAM256")] one).
Proof.
  apply (@exposed_samples_well_labelled
           (modem_serving "123456 seconds" 9
              (channels [ds_first; ds_second]))).
  vm_compute. do 6 right. left. reflexivity.
Defined.

(** ** The status gauges *)

Lemma status_dict_uptime root :
  dict_get (map (fun tag => (tag, findtext_desc root tag)) status_tags)
    "cm_system_uptime"
  = Some (findtext_desc root "cm_system_uptime").
Proof. reflexivity. Qed.

Lemma status_dict_mode root :
  dict_get (map (fun tag => (tag, findtext_desc root tag)) status_tags)
    "cm_docsis_mode"
  = Some (findtext_desc root "cm_docsis_mode").
Proof. reflexivity. Qed.

(** The status gauges on a well-formed document, from a registry that
    holds neither status name. *)
Lemma status_gauges_run root st :
  unregistered status_names st ->
  status_gauges (Doc root) st =
  match findtext_desc root "cm_system_uptime" with
  | EmptyString =>
      (Ok tt, push st (docsis_family (findtext_desc root "cm_docsis_mode")))
  | String c s =>
      match split_first (String c s) with
      | None => (Raise IndexError, st)
      | Some tok =>
          (Ok tt,
           with_registry st
             (registry st
              ++ float_family "modem_system_uptime_seconds" "System Uptime"
                   [] (Py.float tok)
              ++ [docsis_family (findtext_desc root "cm_docsis_mode")]))
      end
  end.
Proof.
  intros H. unfold status_gauges, parse_status, lift.
  unfold bind at 1. unfold ret at 1. cbv beta iota.
  rewrite status_dict_uptime, status_dict_mode.
  fold (plain_gauge_set "modem_docsis_mode"
          "DOCSIS mode (1 for 3.1, 0 otherwise)"
          (if contains "3.1" (findtext_desc root "cm_docsis_mode")
           then one else zero)).
  destruct (findtext_desc root "cm_system_uptime") as [|c s].
  - unfold bind, ret. rewrite plain_gauge_set_run.
    rewrite H by name_in_list. reflexivity.
  - unfold bind at 1.
    destruct (split_first (String c s)) as [tok|] eqn:Etok.
    + rewrite (uptime_metric_token _ st Etok) by (apply H; name_in_list).
      rewrite plain_gauge_set_run.
      destruct (Py.float tok) as [v|]; settle_registered H;
        unfold docsis_family; rewrite <- ?app_assoc; reflexivity.
    + now rewrite uptime_metric_blank.
Qed.

Lemma grows_push (reg0 : list family) st n h
  (kv : list (string * string)) v :
  (exists more, registry st = reg0 ++ more) ->
  registered n (registry st) = false -> True ->
  exists more, registry (push st (single n h kv v)) = reg0 ++ more.
Proof.
  intros [more H] _ _. exists (more ++ [single n h kv v]).
  unfold push. simpl. now rewrite H, app_assoc.
Qed.

(** The channel loops only append to the registry. *)
Lemma channel_groups_grow dfs ufs dev st :
  exists more,
    registry (snd (channel_groups dfs ufs dev st)) = registry st ++ more.
Proof.
  apply (@preserves_channel_groups
           (fun s => exists more, registry s = registry st ++ more)
           (fun _ _ => True)); auto using grows_push.
  exists []. now rewrite app_nil_r.
Qed.

(** A pass whose login and status fetch succeed, from the status gauges
    on. *)
Lemma metrics_past_status dev ls cs s xml st2 :
  login_xml dev = Reply ls cs ->
  In "sessionToken" cs ->
  getter_xml dev 1 = Reply s xml ->
  is_error s = false ->
  status_gauges xml (after_status_fetch cs) = (Ok tt, st2) ->
  exists st3,
    channel_groups downstream_funs upstream_funs dev st2 = (Ok tt, st3) /\
    metrics dev = (Response 200 (Exposition (collect (registry st3))), st3).
Proof.
  intros Hlogin Hin Hget Herr Hst. apply has_token_iff in Hin.
  unfold metrics, metrics_over. rewrite (login_run dev Hlogin), Hin.
  rewrite status_metrics_split. unfold bind at 1.
  unfold fetch_xml, bind, log_request, raise_for_status. rewrite Hget.
  unfold is_error in Herr. rewrite Herr.
  unfold ret. cbn [cookies registry requests app].
  unfold after_status_fetch in Hst. rewrite Hst.
  pose proof (channel_groups_ok downstream_funs upstream_funs dev st2)
    as Hok.
  destruct (channel_groups downstream_funs upstream_funs dev st2)
    as [[[]|e] st3]; simpl in Hok; [|discriminate].
  exists st3. split; reflexivity.
Qed.

(** X8. In a pass whose login succeeds and whose status document is
    well-formed, with an uptime that is empty or has a first token, the
    DOCSIS gauge is always exposed: 1.0 when the text of [cm_docsis_mode]
    contains "3.1", 0.0 otherwise, and 0.0 also when the document has no
    such element. *)
Theorem docsis_mode_always_exposed :
  forall (dev : modem) (ls s : Z) (cs : list string) (root : element),
    login_xml dev = Reply ls cs ->
    In "sessionToken" cs ->
    getter_xml dev 1 = Reply s (Doc root) ->
    is_error s = false ->
    (findtext_desc root "cm_system_uptime" = "" \/
     split_first (findtext_desc root "cm_system_uptime") <> None) ->
    status_code (fst (metrics dev)) = 200 /\
    In (sample_of "modem_docsis_mode" "DOCSIS mode (1 for 3.1, 0 otherwise)"
          []
          (if contains "3.1" (findtext_desc root "cm_docsis_mode")
           then one else zero))
       (exposed (fst (metrics dev))).
Proof.
  intros dev ls s cs root Hlogin Hin Hget Herr Hup.
  assert (Hst : exists st2,
             status_gauges (Doc root) (after_status_fetch cs) = (Ok tt, st2)
             /\ In (docsis_family (findtext_desc root "cm_docsis_mode"))
                  (registry st2)).
  { rewrite status_gauges_run by (intros n _; reflexivity).
    destruct (findtext_desc root "cm_system_uptime") as [|c u].
    - eexists. split; [reflexivity|]. simpl. auto.
    - destruct Hup as [Hup | Hup]; [discriminate|].
      destruct (split_first (String c u)) as [tok|]; [|congruence].
      eexists. split; [reflexivity|]. simpl.
      apply in_or_app. right. now left. }
  destruct Hst as (st2 & Hst & Hdoc).
  destruct (metrics_past_status dev Hlogin Hin Hget Herr Hst)
    as (st3 & Hch & ->).
  split; [reflexivity|]. simpl. unfold exposed. simpl.
  destruct (channel_groups_grow downstream_funs upstream_funs dev st2)
    as [more Hmore].
  rewrite Hch in Hmore. simpl in Hmore. rewrite Hmore, collect_app.
  apply in_or_app. left.
  apply in_split in Hdoc as (l1 & l2 & ->).
  rewrite collect_app. apply in_or_app. right.
  change (docsis_family ?m :: l2) with ([docsis_family m] ++ l2).
  rewrite collect_app. apply in_or_app. left.
  unfold docsis_family. rewrite collect_single. now left.
Qed.

Lemma docsis_mode_always_exposed_witness :
  status_code (fst (metrics (modem_status_only status_without_mode))) = 200
  /\ In (sample_of "modem_docsis_mode"
           "DOCSIS mode (1 for 3.1, 0 otherwise)" [] zero)
        (exposed (fst (metrics (modem_status_only status_without_mode)))).
Proof.
  apply (@docsis_mode_always_exposed (modem_status_only status_without_mode)
           200 200 ["sessionToken"] status_without_mode eq_refl).
  - simpl. auto.
  - reflexivity.
  - reflexivity.
  - right. vm_compute. discriminate.
Defined.

Lemma not_emitted_not_named n reg :
  emitted n reg = false -> ~ In n (map s_name (collect reg)).
Proof.
  unfold emitted. intros H Hin.
  apply in_map_iff in Hin as (s & Hs & Hin).
  assert (existsb (fun s => String.eqb (s_name s) n) (collect reg) = true).
  { apply existsb_exists. exists s. split; auto.
    rewrite Hs. apply String.eqb_refl. }
  congruence.
Qed.

Lemma no_uptime_push st n h (kv : list (string * string)) v :
  registered "modem_system_uptime_seconds" (registry st) = false ->
  registered n (registry st) = false ->
  n <> "modem_system_uptime_seconds" ->
  registered "modem_system_uptime_seconds"
    (registry (push st (single n h kv v))) = false.
Proof.
  intros H _ Hn. unfold push. simpl. rewrite registered_app, H. simpl.
  apply String.eqb_neq in Hn. now rewrite Hn.
Qed.

Lemma channel_name_not_uptime n :
  In n downstream_names \/ In n upstream_names ->
  n <> "modem_system_uptime_seconds".
Proof.
  intros [H | H]; simpl in H;
    repeat (destruct H as [<- | H]; [discriminate|]); destruct H.
Qed.

(** The channel loops never register the uptime gauge. *)
Lemma channel_groups_no_uptime dfs ufs dev st :
  registered "modem_system_uptime_seconds" (registry st) = false ->
  registered "modem_system_uptime_seconds"
    (registry (snd (channel_groups dfs ufs dev st))) = false.
Proof.
  apply (@preserves_channel_groups
           (fun s => registered "modem_system_uptime_seconds"
                       (registry s) = false)
           (fun n _ => n <> "modem_system_uptime_seconds"));
    auto using no_uptime_push, channel_name_not_uptime.
Qed.

(** X9. What becomes of the uptime, in a pass whose login succeeds and
    whose status document is well-formed. An empty or absent uptime
    gives no uptime sample. An uptime with a first whitespace-delimited
    token gives the sample of that token when the token is a float
    literal, whatever follows it, and no uptime sample when it is not;
    in all these cases the answer is 200. An uptime of whitespace only
    gives the 500 answer of the status failure. *)
Theorem uptime_outcomes :
  forall (dev : modem) (ls s : Z) (cs : list string) (root : element),
    login_xml dev = Reply ls cs ->
    In "sessionToken" cs ->
    getter_xml dev 1 = Reply s (Doc root) ->
    is_error s = false ->
    let r := fst (metrics dev) in
    match findtext_desc root "cm_system_uptime" with
    | EmptyString =>
        status_code r = 200 /\
        ~ In "modem_system_uptime_seconds" (names_exposed r)
    | String c u =>
        match split_first (String c u) with
        | None => r = Response 500 (StatusFailed IndexError)
        | Some tok =>
            status_code r = 200 /\
            match Py.float tok with
            | Some v =>
                In (sample_of "modem_system_uptime_seconds" "System Uptime"
                      [] v) (exposed r)
            | None => ~ In "modem_system_uptime_seconds" (names_exposed r)
            end
        end
    end.
Proof.
  intros dev ls s cs root Hlogin Hin Hget Herr. cbv zeta.
  pose proof (status_gauges_run root
                (st := after_status_fetch cs) (fun n _ => eq_refl)) as Hrun.
  destruct (findtext_desc root "cm_system_uptime") as [|c u].
  - destruct (metrics_past_status dev Hlogin Hin Hget Herr Hrun)
      as (st3 & Hch & ->).
    split; [reflexivity|]. unfold names_exposed, exposed. simpl.
    apply not_emitted_not_named, unregistered_not_emitted.
    replace st3 with (snd (channel_groups downstream_funs upstream_funs dev
                             (push (after_status_fetch cs)
                                (docsis_family
                                   (findtext_desc root "cm_docsis_mode")))))
      by now rewrite Hch.
    apply channel_groups_no_uptime. reflexivity.
  - destruct (split_first (String c u)) as [tok|].
    + destruct (metrics_past_status dev Hlogin Hin Hget Herr Hrun)
        as (st3 & Hch & ->).
      split; [reflexivity|]. unfold names_exposed, exposed. simpl.
      destruct (channel_groups_grow downstream_funs upstream_funs dev
                  (with_registry (after_status_fetch cs)
                     (registry (after_status_fetch cs)
                      ++ float_family "modem_system_uptime_seconds"
                           "System Uptime" [] (Py.float tok)
                      ++ [docsis_family
                            (findtext_desc root "cm_docsis_mode")])))
        as [more Hmore].
      destruct (Py.float tok) as [v|].
      * rewrite Hch in Hmore. simpl in Hmore. rewrite Hmore.
        unfold collect. simpl. left. reflexivity.
      * apply not_emitted_not_named, unregistered_not_emitted.
        replace st3 with
          (snd (channel_groups downstream_funs upstream_funs dev
                  (with_registry (after_status_fetch cs)
                     (registry (after_status_fetch cs)
                      ++ float_family "modem_system_uptime_seconds"
                           "System Uptime" [] None
                      ++ [docsis_family
                            (findtext_desc root "cm_docsis_mode")]))))
          by now rewrite Hch.
        apply channel_groups_no_uptime. reflexivity.
    + apply has_token_iff in Hin.
      unfold metrics, metrics_over. rewrite (login_run dev Hlogin), Hin.
      rewrite status_metrics_split. unfold bind at 1.
      unfold fetch_xml, bind, log_request, raise_for_status. rewrite Hget.
      unfold is_error in Herr. rewrite Herr.
      unfold ret. cbn [cookies registry requests app].
      unfold after_status_fetch in Hrun. now rewrite Hrun.
Qed.

Lemma uptime_outcomes_witness :
  status_code
    (fst (metrics (modem_status_only status_with_duplicates))) = 200 /\
  In (sample_of "modem_system_uptime_seconds" "System Uptime" []
        (to_float 10))
     (exposed (fst (metrics (modem_status_only status_with_duplicates)))).
Proof.
  apply (@uptime_outcomes (modem_status_only status_with_duplicates)
           200 200 ["sessionToken"] status_with_duplicates eq_refl).
  - simpl. auto.
  - reflexivity.
  - reflexivity.
Defined.

(** ** Records after the first *)

Lemma stays_registered_push (n0 : string) st n h
  (kv : list (string * string)) v :
  registered n0 (registry st) = true ->
  registered n (registry st) = false -> True ->
  registered n0 (registry (push st (single n h kv v))) = true.
Proof.
  intros H _ _. unfold push. simpl. now rewrite registered_app, H.
Qed.

Lemma bind_raises_in_the_end {A} (P : pass_state -> Prop)
  (m : M A) (k : A -> M unit) :
  preserves P m ->
  (forall a s, P s -> exists e, fst (k a s) = Raise e) ->
  forall st, P st -> exists e, fst (bind m k st) = Raise e.
Proof.
  intros Hm Hk st H. unfold bind. specialize (Hm st H).
  destruct (m st) as [[a|e] s1]; simpl in *; [now apply Hk | now exists e].
Qed.

Ltac keeps_registered :=
  repeat first
    [ apply preserves_gauge_set with (entry_ok := fun _ _ => True);
        [intros; now apply stays_registered_push | exact I]
    | apply preserves_gauge_set_int with (entry_ok := fun _ _ => True);
        [intros; now apply stays_registered_push | exact I]
    | apply preserves_try_ValueError | apply preserves_or_raise
    | apply preserves_bind | intro ].

(** Once the lock gauge of a direction is registered, the handler's
    statements for any further record of that direction end in an
    exception. *)
Lemma downstream_channel_raises ds st :
  registered "modem_downstream_locked" (registry st) = true ->
  exists e, fst (downstream_channel ds st) = Raise e.
Proof.
  unfold downstream_channel. cbv zeta. revert st.
  apply bind_raises_in_the_end; [keeps_registered|]. intros _.
  apply bind_raises_in_the_end; [keeps_registered|]. intros _.
  apply bind_raises_in_the_end; [keeps_registered|]. intros _ s H.
  rewrite gauge_set_run, H. now exists ValueError.
Qed.

Lemma upstream_channel_raises us st :
  registered "modem_upstream_locked" (registry st) = true ->
  exists e, fst (upstream_channel us st) = Raise e.
Proof.
  unfold upstream_channel. cbv zeta. revert st.
  apply bind_raises_in_the_end; [keeps_registered|]. intros _.
  apply bind_raises_in_the_end; [keeps_registered|]. intros _ s H.
  rewrite gauge_set_run, H. now exists ValueError.
Qed.

Lemma for_each_stops {A} (body : A -> M unit) a l st :
  (exists e, fst (body a st) = Raise e) ->
  for_each (a :: l) body st = body a st.
Proof.
  intros [e He]. simpl. unfold bind.
  destruct (body a st) as [[[]|e'] s]; simpl in He;
    [discriminate | reflexivity].
Qed.

Lemma for_each_step {A} (body : A -> M unit) a l st s1 :
  body a st = (Ok tt, s1) ->
  for_each (a :: l) body st = for_each l body s1.
Proof. intros H. simpl. unfold bind. now rewrite H. Qed.

(** X10. Only the first two records of a payload are ever processed.
    From a registry that holds none of the names of the direction, the
    loop over a payload of two records or more ends in an exception at
    its second record, and the records after the second change nothing:
    the loop leaves the result and the state it leaves on the first two
    records alone. *)
Theorem records_after_the_second_are_not_processed :
  (forall r1 r2 rest st,
     unregistered downstream_names st -> counters_fit r1 ->
     (exists e,
        fst (for_each (r1 :: r2 :: rest) downstream_channel st) = Raise e)
     /\ for_each (r1 :: r2 :: rest) downstream_channel st
        = for_each [r1; r2] downstream_channel st) /\
  (forall r1 r2 rest st,
     unregistered upstream_names st ->
     (exists e,
        fst (for_each (r1 :: r2 :: rest) upstream_channel st) = Raise e)
     /\ for_each (r1 :: r2 :: rest) upstream_channel st
        = for_each [r1; r2] upstream_channel st).
Proof.
  split.
  - intros r1 r2 rest st H Hfit.
    set (s1 := with_registry st (registry st ++ downstream_families r1)).
    rewrite !(for_each_step downstream_channel r1 _ st (s1 := s1))
      by now apply downstream_channel_fresh.
    assert (Hreg : registered "modem_downstream_locked" (registry s1) = true).
    { unfold s1, downstream_families. simpl.
      rewrite !registered_app. simpl. now rewrite !orb_true_r. }
    pose proof (downstream_channel_raises r2 s1 Hreg) as Hr.
    rewrite !for_each_stops by exact Hr. split; [exact Hr | reflexivity].
  - intros r1 r2 rest st H.
    set (s1 := with_registry st (registry st ++ upstream_families r1)).
    rewrite !(for_each_step upstream_channel r1 _ st (s1 := s1))
      by now apply upstream_channel_fresh.
    assert (Hreg : registered "modem_upstream_locked" (registry s1) = true).
    { unfold s1, upstream_families. simpl.
      rewrite !registered_app. simpl. now rewrite !orb_true_r. }
    pose proof (upstream_channel_raises r2 s1 Hreg) as Hr.
    rewrite !for_each_stops by exact Hr. split; [exact Hr | reflexivity].
Qed.

Lemma records_after_the_second_are_not_processed_witness :
  for_each (map downstream_entry [ds_first; ds_second; ds_third])
    downstream_channel fresh_state
  = for_each (map downstream_entry [ds_first; ds_second])
      downstream_channel fresh_state.
Proof.
  assert (Hfit : counters_fit (downstream_entry ds_first))
    by concrete_counters_fit.
  exact (proj2 (proj1 records_after_the_second_are_not_processed
                  (downstream_entry ds_first) (downstream_entry ds_second)
                  [downstream_entry ds_third] fresh_state
                  (unregistered_fresh downstream_names) Hfit)).
Defined.

(** ** What never reaches the exposition *)

(** X11. Of what the resolvers read, the handler uses only part. Two
    well-formed status documents that agree on the uptime and on the
    DOCSIS mode are turned into the same gauges, whatever their twelve
    other fields hold; two downstream records that differ in their
    frequency only, and two upstream records that differ in their
    bandwidth only, are processed alike. *)
Theorem unused_fields_do_not_matter :
  (forall root root' st,
     findtext_desc root "cm_system_uptime"
       = findtext_desc root' "cm_system_uptime" ->
     findtext_desc root "cm_docsis_mode"
       = findtext_desc root' "cm_docsis_mode" ->
     status_gauges (Doc root) st = status_gauges (Doc root') st) /\
  (forall ds ds' st,
     same_but_frequency ds ds' ->
     downstream_channel ds st = downstream_channel ds' st) /\
  (forall us us' st,
     same_but_bandwidth us us' ->
     upstream_channel us st = upstream_channel us' st).
Proof.
  split; [|split].
  - intros root root' st Hup Hmode.
    unfold status_gauges, parse_status, lift.
    unfold bind at 1 3. unfold ret at 1 3. cbv beta iota.
    now rewrite !status_dict_uptime, !status_dict_mode, Hup, Hmode.
  - intros ds ds' st (H1 & H2 & H3 & H4 & H5 & H6 & H7).
    rewrite (@downstream_channel_view ds ds'); try congruence.
    unfold ds_labels. congruence.
  - intros us us' st (H1 & H2 & H3 & H4 & H5).
    unfold upstream_channel, us_labels. cbv zeta.
    now rewrite H1, H2, H3, H4, H5.
Qed.

Lemma unused_fields_do_not_matter_witness :
  status_gauges (Doc status_rich) fresh_state
  = status_gauges (Doc status_bare) fresh_state.
Proof.
  apply (proj1 unused_fields_do_not_matter status_rich status_bare
           fresh_state); reflexivity.
Defined.

Lemma grew_by_channels_push reg0 st n h (kv : list (string * string)) v :
  grew_by_channels reg0 st ->
  registered n (registry st) = false ->
  In n (downstream_names ++ upstream_names) ->
  grew_by_channels reg0 (push st (single n h kv v)).
Proof.
  intros (more & Hreg & Hall) _ Hn. exists (more ++ [single n h kv v]).
  unfold push. simpl. rewrite Hreg, app_assoc. split; [reflexivity|].
  apply Forall_app. split; [exact Hall|].
  constructor; [exact Hn | constructor].
Qed.

Lemma channel_groups_grow_by_channels dfs ufs dev st :
  grew_by_channels (registry st) (snd (channel_groups dfs ufs dev st)).
Proof.
  apply (@preserves_channel_groups (grew_by_channels (registry st))
           (fun n _ => In n (downstream_names ++ upstream_names)));
    auto using grew_by_channels_push.
  - intros e n Hn. apply in_or_app. now left.
  - intros e n Hn. apply in_or_app. now right.
  - exists []. rewrite app_nil_r. split; [reflexivity | constructor].
Qed.

(** X12. The channel payloads cannot touch the status samples. In a
    pass whose login succeeds and whose status gauges are set without an
    exception, the exposition starts with the samples the status block
    left in the registry, unchanged, and every sample after them carries
    the name of a channel metric. *)
Theorem status_samples_come_first :
  forall (dev : modem) (ls s : Z) (cs : list string) (xml : xml_bytes)
         (st2 : pass_state),
    login_xml dev = Reply ls cs ->
    In "sessionToken" cs ->
    getter_xml dev 1 = Reply s xml ->
    is_error s = false ->
    status_gauges xml (after_status_fetch cs) = (Ok tt, st2) ->
    exists more,
      exposed (fst (metrics dev)) = collect (registry st2) ++ more /\
      Forall (fun x => In (s_name x) (downstream_names ++ upstream_names))
        more.
Proof.
  intros dev ls s cs xml st2 Hlogin Hin Hget Herr Hst.
  destruct (metrics_past_status dev Hlogin Hin Hget Herr Hst)
    as (st3 & Hch & ->).
  pose proof (channel_groups_grow_by_channels downstream_funs upstream_funs
                dev st2) as (more & Hreg & Hall).
  rewrite Hch in Hreg. simpl in Hreg.
  exists (collect more). unfold exposed. simpl.
  rewrite Hreg, collect_app. split; [reflexivity|].
  apply Forall_forall. intros x Hx. unfold collect in Hx.
  apply in_flat_map in Hx as (f & Hf & Hx).
  unfold family_samples in Hx. apply in_map_iff in Hx as (ch & <- & _).
  simpl. rewrite Forall_forall in Hall. now apply Hall.
Qed.

Lemma status_samples_come_first_witness :
  exists more,
    exposed (fst (metrics (modem_serving "123456 seconds" 9
                             (channels [ds_first; ds_second]))))
    = collect
        (registry
           (snd (status_gauges (status_doc "123456 seconds")
                   (after_status_fetch ["sessionToken"])))) ++ more /\
    Forall (fun x => In (s_name x) (downstream_names ++ upstream_names))
      more.
Proof.
  apply (@status_samples_come_first
           (modem_serving "123456 seconds" 9
              (channels [ds_first; ds_second]))
           200 200 ["sessionToken"] (status_doc "123456 seconds")
           (snd (status_gauges (status_doc "123456 seconds")
                   (after_status_fetch ["sessionToken"])))
           eq_refl).
  - simpl. auto.
  - reflexivity.
  - reflexivity.
  - vm_compute. reflexivity.
Defined.

(** ** The lock sample of the first record *)

(** X13. For the first record of a direction (none of the names of the
    direction registered yet; downstream, counters that fit a float) the
    lock sample is exposed under the labels of the record, and its value
    is 1.0 exactly when the lock text, lowercased, is "1", "yes" or
    "locked"; it is 0.0 for every other text and for an absent field. *)
Theorem lock_sample_of_the_first_record :
  (forall ds st,
     unregistered downstream_names st -> counters_fit ds ->
     In (sample_of "modem_downstream_locked" "Channel Locked (1 if locked)"
           (ds_labels ds) (lock_value (or_str (ds_locked ds) "")))
        (collect (registry (snd (downstream_channel ds st))))) /\
  (forall us st,
     unregistered upstream_names st ->
     In (sample_of "modem_upstream_locked" "Channel Locked (1 if locked)"
           (us_labels us) (lock_value (or_str (us_locked us) "")))
        (collect (registry (snd (upstream_channel us st))))) /\
  (forall s, lock_value s = one <-> In (lower s) lock_vocabulary) /\
  (forall s, lock_value s = zero <-> ~ In (lower s) lock_vocabulary) /\
  lock_value (or_str None "") = zero.
Proof.
  split; [exact lock_sample_of_first_record|]. split.
  - intros us st H. rewrite upstream_channel_fresh by assumption.
    unfold upstream_families. simpl.
    do 3 (rewrite collect_app; apply in_or_app; right).
    rewrite collect_single. now left.
  - split; [|split; [|reflexivity]]; intros s;
      destruct (lock_value_cases s) as [[Hin ->] | [Hout ->]];
      split; intros H; try reflexivity; try assumption;
      try discriminate; contradiction.
Qed.

Lemma lock_sample_of_the_first_record_witness :
  In (sample_of "modem_upstream_locked" "Channel Locked (1 if locked)"
        [("channel", "4"); ("type", "SC-QAM")] one)
     (collect (registry (snd (upstream_channel
                                (upstream_entry us_locked_capitals)
                                fresh_state)))).
Proof.
  exact (proj1 (proj2 lock_sample_of_the_first_record)
           (upstream_entry us_locked_capitals) fresh_state
           (unregistered_fresh upstream_names)).
Defined.
